(** * RectangleWin: the placement engine of [main.go]

    A shallow embedding of the hotkey callbacks of [main.go] (the cycle
    closure [cycleFuncs], [resize], [moveToNextMonitor], [maximize]) and of
    the pure helpers they use ([modNeg], [center], [resizeForDpi],
    [sameRect]), followed by the properties of the placement engine.

    Conventions.
    - Go's [int32] and [int] values are integers of [Z]; every arithmetic
      operation writes out its two's-complement wrap-around ([wrap32],
      [wrap64]; [int] is taken at 64 bits, the width of the amd64 and arm64
      builds).  Go's [/] and [%] truncate toward zero ([Z.quot], [Z.rem])
      and panic on a zero divisor.
    - A pointer [*w32.RECT] is an [option RECT]; [None] is [nil].
    - A run-time panic is an outcome of its own ([Panic]), distinct from a
      returned [error].
    - The Win32 layer is a record of answers ([Platform]), one snapshot per
      hotkey invocation; the program's own globals ([lastResized] and the
      slice [edgeFuncTurn]) are threaded explicitly. *)

From Stdlib Require Import ZArith List String Bool Lia.
From stdpp Require Import base list.
Import ListNotations.

Local Open Scope Z_scope.

(** ** Machine integers *)

Module GoInt.

(** Two's-complement reduction of [z] to a signed integer of [bits] bits. *)
Definition wrap (bits z : Z) : Z :=
  (z + 2 ^ (bits - 1)) mod 2 ^ bits - 2 ^ (bits - 1).

Definition wrap32 : Z -> Z := wrap 32.
Definition wrap64 : Z -> Z := wrap 64.

Definition in_int32 (z : Z) : Prop := - 2 ^ 31 <= z < 2 ^ 31.
Definition in_int64 (z : Z) : Prop := - 2 ^ 63 <= z < 2 ^ 63.

End GoInt.
Import GoInt.

(** ** Outcomes: a value or a run-time panic *)

Inductive result (A : Type) : Type :=
| Ok (a : A)
| Panic (msg : string).
Arguments Ok {A} a.
Arguments Panic {A} msg.

Definition rbind {A B : Type} (r : result A) (k : A -> result B) : result B :=
  match r with
  | Ok a => k a
  | Panic msg => Panic msg
  end.

Declare Scope result_scope.
Delimit Scope result_scope with result.
Notation "'let?' x ':=' r 'in' k" := (rbind r (fun x => k))
  (at level 10, x name, r at level 100, k at level 200) : result_scope.
Local Open Scope result_scope.

Definition divide_by_zero : string :=
  "runtime error: integer divide by zero"%string.
Definition nil_dereference : string :=
  "runtime error: invalid memory address or nil pointer dereference"%string.
Definition index_out_of_range : string :=
  "runtime error: index out of range"%string.

(** [int32] arithmetic of Go. *)
Definition add32 (a b : Z) : Z := wrap32 (a + b).
Definition sub32 (a b : Z) : Z := wrap32 (a - b).
Definition neg32 (a : Z) : Z := wrap32 (- a).
Definition mul32 (a b : Z) : Z := wrap32 (a * b).
Definition div32 (a b : Z) : result Z :=
  if b =? 0 then Panic divide_by_zero else Ok (wrap32 (Z.quot a b)).

(** [int] arithmetic of Go. *)
Definition add64 (a b : Z) : Z := wrap64 (a + b).
Definition sub64 (a b : Z) : Z := wrap64 (a - b).
Definition rem64 (a b : Z) : result Z :=
  if b =? 0 then Panic divide_by_zero else Ok (Z.rem a b).

(** [*p] for a pointer [p]. *)
Definition deref {A : Type} (p : option A) : result A :=
  match p with
  | Some x => Ok x
  | None => Panic nil_dereference
  end.

(** [s[i]] for a slice [s] and an [int] index [i]. *)
Definition index {A : Type} (s : list A) (i : Z) : result A :=
  if i <? 0 then Panic index_out_of_range
  else match s !! Z.to_nat i with
       | Some x => Ok x
       | None => Panic index_out_of_range
       end.

(** ** Rectangles *)

(** [w32.RECT]: four [int32] fields. *)
Record RECT : Type := mkRECT { Left : Z; Top : Z; Right : Z; Bottom : Z }.

Definition Width (r : RECT) : Z := sub32 (Right r) (Left r).
Definition Height (r : RECT) : Z := sub32 (Bottom r) (Top r).

Definition rect32 (r : RECT) : Prop :=
  in_int32 (Left r) /\ in_int32 (Top r) /\ in_int32 (Right r) /\ in_int32 (Bottom r).

(** [reflect.DeepEqual] on two [RECT] values compares them field by field. *)
Definition DeepEqual (a b : RECT) : bool :=
  (Left a =? Left b) && (Top a =? Top b) && (Right a =? Right b) && (Bottom a =? Bottom b).

Definition is_nil {A : Type} (p : option A) : bool :=
  match p with None => true | Some _ => false end.

(** [func sameRect(a, b *w32.RECT) bool]: [&&] evaluates its right operand
    only when the left one is true. *)
Definition sameRect (a b : option RECT) : result bool :=
  if is_nil a then Ok false
  else if is_nil b then Ok false
  else let? x := deref a in
       let? y := deref b in
       Ok (DeepEqual x y).

(** [func resizeForDpi(src w32.RECT, from, to int32) w32.RECT]; the fields of
    the literal are evaluated in the order they are written. *)
Definition resizeForDpi (src : RECT) (from to : Z) : result RECT :=
  let? l := div32 (mul32 (Left src) to) from in
  let? r := div32 (mul32 (Right src) to) from in
  let? t := div32 (mul32 (Top src) to) from in
  let? b := div32 (mul32 (Bottom src) to) from in
  Ok {| Left := l; Top := t; Right := r; Bottom := b |}.

(** [func center(disp, cur w32.RECT) w32.RECT]. *)
Definition center (disp cur : RECT) : RECT :=
  let w := wrap32 (Z.quot (sub32 (Width disp) (Width cur)) 2) in
  let h := wrap32 (Z.quot (sub32 (Height disp) (Height cur)) 2) in
  {| Left := add32 (Left disp) w;
     Right := add32 (add32 (Left disp) w) (Width cur);
     Top := add32 (Top disp) h;
     Bottom := add32 (add32 (Top disp) h) (Height cur) |}.

(** [func modNeg(v, m int) int]. *)
Definition modNeg (v m : Z) : result Z :=
  let? r := rem64 v m in
  rem64 (add64 r m) m.

(** ** The Win32 layer and the program's globals *)

(** [w32.HWND] and [w32.HMONITOR] are handles, compared only for equality. *)
Definition HWND : Type := Z.
Definition HMONITOR : Type := Z.

Definition SW_SHOWNORMAL : Z := 1.
Definition SW_MAXIMIZE : Z := 3.

(** What the platform answers during one hotkey invocation.  The calls whose
    result the program ignores are left out.  [GetWindowRect] is called a
    second time after a successful move; [GetWindowRect_after] is that
    answer.  [isZonableWindow] and [EnumMonitors] belong to other files of
    the package: the first is an answer of this record, the second is the
    list of handles its callback receives, in the order it receives them. *)
Record Platform : Type := mkPlatform {
  GetForegroundWindow : HWND;
  isZonableWindow : HWND -> bool;
  GetWindowText : HWND -> string;
  GetWindowRect : HWND -> option RECT;
  GetWindowRect_after : HWND -> option RECT;
  MonitorFromWindow : HWND -> HMONITOR;
  (** [GetDeviceCaps(GetDC(hwnd), LOGPIXELSY)], an [int] *)
  GetDeviceCaps_LOGPIXELSY : HWND -> Z;
  ReleaseDC : HWND -> bool;
  (** [Some rcWork] when [GetMonitorInfo] returns true *)
  GetMonitorInfo : HMONITOR -> option RECT;
  DwmGetWindowAttributeEXTENDED_FRAME_BOUNDS : HWND -> bool * RECT;
  (** a [uint32] *)
  GetDpiForWindow : HWND -> Z;
  EnumMonitors : list HMONITOR;
  ShowWindow : HWND -> Z -> bool;
  SetWindowPos : HWND -> RECT -> bool;
  GetLastError : Z
}.

(** Go [error] values: [fmt.Errorf(format, w32.GetLastError())] and
    [errors.New(text)]. *)
Inductive error : Type :=
| Errorf (format : string) (code : Z)
| errors_New (text : string).

(** What an invocation writes to standard output and asks of the window
    manager, in order. *)
Inductive event : Type :=
| Printf (format : string)
| Println (text : string)
| Printf_err (format : string) (err : error)
| Call_ShowWindow (hwnd : HWND) (cmd : Z)
| Call_SetWindowPos (hwnd : HWND) (x y w h : Z).

(** [var lastResized w32.HWND] and the slice behind [edgeFuncTurn]. *)
Record globals : Type := mkGlobals {
  lastResized : HWND;
  edgeFuncTurn : list Z
}.

(** Computations over the globals that may panic and that leave a trace. *)
Definition M (A : Type) : Type := globals -> result A * globals * list event.

Definition ret {A : Type} (a : A) : M A := fun g => (Ok a, g, []).

Definition bind {A B : Type} (m : M A) (k : A -> M B) : M B :=
  fun g =>
    match m g with
    | (Ok a, g1, t1) =>
        match k a g1 with
        | (r, g2, t2) => (r, g2, t1 ++ t2)
        end
    | (Panic msg, g1, t1) => (Panic msg, g1, t1)
    end.

Definition lift {A : Type} (r : result A) : M A := fun g => (r, g, []).
Definition panic {A : Type} (msg : string) : M A := lift (Panic msg).
Definition emit (e : event) : M unit := fun g => (Ok tt, g, [e]).
Definition get : M globals := fun g => (Ok g, g, []).
Definition set_lastResized (h : HWND) : M unit :=
  fun g => (Ok tt, {| lastResized := h; edgeFuncTurn := edgeFuncTurn g |}, []).
Definition set_turns (ts : list Z) : M unit :=
  fun g => (Ok tt, {| lastResized := lastResized g; edgeFuncTurn := ts |}, []).

(** The three components of a run: what it returns or panics with, the
    globals it leaves behind, and its trace. *)
Definition outcome {A : Type} (m : M A) (g : globals) : result A := fst (fst (m g)).
Definition after {A : Type} (m : M A) (g : globals) : globals := snd (fst (m g)).
Definition trace {A : Type} (m : M A) (g : globals) : list event := snd (m g).

Declare Scope go_scope.
Delimit Scope go_scope with go.
Notation "'let!' x ':=' m 'in' k" := (bind m (fun x => k))
  (at level 10, x name, m at level 100, k at level 200) : go_scope.
Notation "m ';;;' k" := (bind m (fun _ => k))
  (at level 100, right associativity) : go_scope.
Local Open Scope go_scope.

(** [type resizeFunc func(disp, cur w32.RECT) w32.RECT]. *)
Definition resizeFunc : Type := RECT -> RECT -> RECT.

(** The four invisible-border extents of lines 262-265 and the adjustment of
    lines 270-273, shared by [resize] and [moveToNextMonitor]. *)
Record extents : Type := mkExtents { lExtra : Z; rExtra : Z; tExtra : Z; bExtra : Z }.

Definition borderExtents (resizedFrame rect : RECT) : extents :=
  {| lExtra := sub32 (Left resizedFrame) (Left rect);
     rExtra := add32 (neg32 (Right resizedFrame)) (Right rect);
     tExtra := sub32 (Top resizedFrame) (Top rect);
     bExtra := add32 (neg32 (Bottom resizedFrame)) (Bottom rect) |}.

Definition adjustOffsets (newPos : RECT) (e : extents) : RECT :=
  {| Left := sub32 (Left newPos) (lExtra e);
     Top := sub32 (Top newPos) (tExtra e);
     Right := add32 (Right newPos) (rExtra e);
     Bottom := add32 (Bottom newPos) (bExtra e) |}.

(** The callback handed to [EnumMonitors] (lines 158-165), run on one handle:
    the state is [(monitors, monitorIndex, curMonitorIndex)]. *)
Definition enumCallback (mon : HMONITOR)
    (st : list HMONITOR * Z * Z) (d : HMONITOR) : list HMONITOR * Z * Z :=
  let '(monitors, monitorIndex, curMonitorIndex) := st in
  (monitors ++ [d],
   (if d =? mon then curMonitorIndex else monitorIndex),
   add64 curMonitorIndex 1).

(** Lines 154-168: the enumeration and the choice of the target monitor. *)
Definition selectMonitor (enumerated : list HMONITOR) (mon : HMONITOR) : result HMONITOR :=
  let '(monitors, monitorIndex, _) :=
    fold_left (enumCallback mon) enumerated ([], 0, 0) in
  let? k := modNeg (sub64 monitorIndex 1) (Z.of_nat (length monitors)) in
  index monitors k.

Section Invocation.

(** The platform's answers during this invocation. *)
Variable P : Platform.

(** Lines 209-218 and 281-290: the move itself. *)
Definition moveWindow (hwnd : HWND) (newPos : RECT) : M (bool * option error) :=
  emit (Printf "> resizing to: %#v (W:%d,H:%d)\n") ;;;
  emit (Call_ShowWindow hwnd SW_SHOWNORMAL) ;;;
  if negb (ShowWindow P hwnd SW_SHOWNORMAL) then
    ret (false, Some (Errorf "failed to normalize window ShowWindow:%d" (GetLastError P)))
  else
    emit (Call_SetWindowPos hwnd (Left newPos) (Top newPos) (Width newPos) (Height newPos)) ;;;
    if negb (SetWindowPos P hwnd newPos) then
      ret (false, Some (Errorf "failed to SetWindowPos:%d" (GetLastError P)))
    else
      let! rect := lift (deref (GetWindowRect_after P hwnd)) in
      emit (Printf "> post-resize: %#v(W:%d,H:%d)\n") ;;;
      ret (true, None).

(** Lines 182-218 and 254-290, from the DPI normalisation on: [target] is
    the layout applied to the work area and the normalised frame. *)
Definition place (hwnd : HWND) (rect : option RECT) (displayDPI : Z)
    (rcWork frame : RECT) (target : resizeFunc) : M (bool * option error) :=
  let windowDPI := GetDpiForWindow P hwnd in
  let! resizedFrame := lift (resizeForDpi frame (wrap32 windowDPI) (wrap32 displayDPI)) in
  let! r := lift (deref rect) in
  emit (Printf "> window: 0x%x %#v (w:%d,h:%d) mon=0x%X(@ display DPI:%d)\n") ;;;
  emit (Printf "> DWM frame:        %#v (W:%d,H:%d) @ window DPI=%v\n") ;;;
  emit (Printf "> DPI-less frame:   %#v (W:%d,H:%d)\n") ;;;
  let e := borderExtents resizedFrame r in
  let newPos := adjustOffsets (target rcWork resizedFrame) e in
  set_lastResized hwnd ;;;
  let! same := lift (sameRect rect (Some newPos)) in
  if same then
    emit (Println "no resize") ;;;
    ret (false, None)
  else moveWindow hwnd newPos.

(** Lines 170-218 and 242-290, the part [resize] and [moveToNextMonitor]
    have in common: [mon] is the monitor whose work area is used and
    [target] the layout. *)
Definition placeOn (hwnd : HWND) (rect : option RECT) (displayDPI : Z)
    (mon : HMONITOR) (target : resizeFunc) : M (bool * option error) :=
  if negb (ReleaseDC P hwnd) then
    ret (false, Some (Errorf "failed to ReleaseDC:%d" (GetLastError P)))
  else
    match GetMonitorInfo P mon with
    | None => ret (false, Some (Errorf "failed to GetMonitorInfo:%d" (GetLastError P)))
    | Some rcWork =>
        let '(ok, frame) := DwmGetWindowAttributeEXTENDED_FRAME_BOUNDS P hwnd in
        if negb ok then
          ret (false, Some (Errorf "failed to DwmGetWindowAttributeEXTENDED_FRAME_BOUNDS:%d"
                              (GetLastError P)))
        else place hwnd rect displayDPI rcWork frame target
    end.

(** [func resize(hwnd w32.HWND, f resizeFunc) (bool, error)]. *)
Definition resize (hwnd : HWND) (f : resizeFunc) : M (bool * option error) :=
  if negb (isZonableWindow P hwnd) then
    emit (Printf "warn: non-zonable window: %s\n") ;;;
    ret (false, None)
  else
    let rect := GetWindowRect P hwnd in
    let mon := MonitorFromWindow P hwnd in
    let displayDPI := GetDeviceCaps_LOGPIXELSY P hwnd in
    placeOn hwnd rect displayDPI mon f.

(** [func moveToNextMonitor(hwnd w32.HWND) (bool, error)]. *)
Definition moveToNextMonitor (hwnd : HWND) : M (bool * option error) :=
  if negb (isZonableWindow P hwnd) then
    emit (Printf "warn: non-zonable window: %s\n") ;;;
    ret (false, None)
  else
    let rect := GetWindowRect P hwnd in
    let mon := MonitorFromWindow P hwnd in
    let displayDPI := GetDeviceCaps_LOGPIXELSY P hwnd in
    let! mon := lift (selectMonitor (EnumMonitors P) mon) in
    placeOn hwnd rect displayDPI mon center.

(** [func maximize() error]. *)
Definition maximize : M (option error) :=
  let hwnd := GetForegroundWindow P in
  if negb (isZonableWindow P hwnd) then
    ret (Some (errors_New "foreground window is not zonable"))
  else
    emit (Call_ShowWindow hwnd SW_MAXIMIZE) ;;;
    if negb (ShowWindow P hwnd SW_MAXIMIZE) then
      ret (Some (Errorf "failed to ShowWindow:%d" (GetLastError P)))
    else ret None.

End Invocation.

(** ** The cycle closure and the hotkey table *)

(** The layout functions named in [edgeFuncs]; they are defined in another
    file of the package and enter here as a table of [resizeFunc] values. *)
Record Layouts : Type := mkLayouts {
  leftHalf : resizeFunc;
  leftTwoThirds : resizeFunc;
  leftOneThirds : resizeFunc;
  rightHalf : resizeFunc;
  rightTwoThirds : resizeFunc;
  rightOneThirds : resizeFunc;
  topHalf : resizeFunc;
  topTwoThirds : resizeFunc;
  topOneThirds : resizeFunc;
  bottomHalf : resizeFunc;
  bottomTwoThirds : resizeFunc;
  bottomOneThirds : resizeFunc;
  middleThirds : resizeFunc
}.

(** [make([]int, n)]. *)
Definition make (n : nat) : list Z := repeat 0 n.

(** The loop of lines 71-75, entered with [j] and [n] iterations to go. *)
Fixpoint zeroOthers (i : Z) (n : nat) (j : Z) (turns : list Z) : list Z :=
  match n with
  | O => turns
  | S n' =>
      zeroOthers i n' (add64 j 1)
        (if negb (j =? i) then <[Z.to_nat j := 0]> turns else turns)
  end.

(** One hotkey of [hks]: its id and its callback. *)
Record HotKey : Type := mkHotKey { id : Z; callback : M unit }.

Section Program.

Variable L : Layouts.

(** [edgeFuncs], lines 49-55. *)
Definition edgeFuncs : list (list resizeFunc) :=
  [ [leftHalf L; leftTwoThirds L; leftOneThirds L];
    [rightHalf L; rightTwoThirds L; rightOneThirds L];
    [topHalf L; topTwoThirds L; topOneThirds L];
    [bottomHalf L; bottomTwoThirds L; bottomOneThirds L];
    [leftOneThirds L; middleThirds L; rightOneThirds L] ].

(** The globals when [main] has built its tables: [lastResized] holds the
    zero value and [edgeFuncTurn] is [make([]int, len(edgeFuncs))]. *)
Definition startup : globals :=
  {| lastResized := 0; edgeFuncTurn := make (length edgeFuncs) |}.

Variable P : Platform.

(** The closure [cycleFuncs], lines 58-76.  Its parameter [turns] is the
    address of [edgeFuncTurn] at its only call site, so the slice it
    reads and writes is the global one. *)
Definition cycleFuncs (funcs : list (list resizeFunc)) (i : Z) : M unit :=
  let hwnd := GetForegroundWindow P in
  if hwnd =? 0 then panic "foreground window is NULL"
  else
    let! g := get in
    (if negb (lastResized g =? hwnd) then set_turns (make (length edgeFuncs))
     else ret tt) ;;;
    let! row := lift (index funcs i) in
    let! g := get in
    let! t := lift (index (edgeFuncTurn g) i) in
    let! k := lift (rem64 t (Z.of_nat (length row))) in
    let! f := lift (index row k) in
    let! res := resize P hwnd f in
    match snd res with
    | Some err => emit (Printf_err "warn: resize: %v\n" err)
    | None =>
        let! g := get in
        let! t := lift (index (edgeFuncTurn g) i) in
        set_turns (<[Z.to_nat i := add64 t 1]> (edgeFuncTurn g)) ;;;
        let! g := get in
        set_turns (zeroOthers i (length (edgeFuncTurn g)) 0 (edgeFuncTurn g))
    end.

(** [cycleEdgeFuncs := func(i int) { cycleFuncs(edgeFuncs, &edgeFuncTurn, i) }]. *)
Definition cycleEdgeFuncs (i : Z) : M unit := cycleFuncs edgeFuncs i.

(** The callback of hotkey 50. *)
Definition onMaximize : M unit :=
  set_lastResized 0 ;;;
  let! err := maximize P in
  match err with
  | Some e => emit (Printf_err "warn: maximize: %v\n" e)
  | None => ret tt
  end.

(** The callback of hotkey 52. *)
Definition onMoveToMonitor : M unit :=
  let hwnd := GetForegroundWindow P in
  if hwnd =? 0 then panic "foreground window is NULL"
  else
    let! res := moveToNextMonitor P hwnd in
    match snd res with
    | Some e => emit (Printf_err "warn: maximize: %v\n" e)
    | None => ret tt
    end.

(** [hks], lines 80-103 (modifiers and virtual keys left out). *)
Definition hks : list HotKey :=
  [ {| id := 1; callback := cycleEdgeFuncs 0 |};
    {| id := 2; callback := cycleEdgeFuncs 1 |};
    {| id := 3; callback := cycleEdgeFuncs 2 |};
    {| id := 4; callback := cycleEdgeFuncs 3 |};
    {| id := 50; callback := onMaximize |};
    {| id := 51; callback := cycleEdgeFuncs 4 |};
    {| id := 52; callback := onMoveToMonitor |} ].

End Program.

(** One hotkey invocation: some hotkey of the table fires under some
    platform snapshot; the globals it leaves behind are those at its return
    or at its panic. *)
Inductive fires (L : Layouts) (g g' : globals) : Prop :=
| fires_hotkey (P : Platform) (hk : HotKey) (r : result unit) (t : list event) :
    In hk (hks L P) -> callback hk g = (r, g', t) -> fires L g g'.

(** The globals after any sequence of hotkey invocations from startup. *)
Inductive reachable (L : Layouts) : globals -> Prop :=
| reachable_startup : reachable L (startup L)
| reachable_fires g g' : reachable L g -> fires L g g' -> reachable L g'.

(** The number of non-zero turn indices. *)
Definition nonzeroTurns (turns : list Z) : nat :=
  length (List.filter (fun t => negb (t =? 0)) turns).

(** ** A concrete layout table and concrete platforms *)

Module Sample.

(** Modelled from the spec: the layout functions of [edgeFuncs] are not in
    [main.go].  Section 4.4 describes each as the given fraction of the
    work area along one axis, flush to the named edge, full extent along
    the other axis, with floor rounding. *)
Definition fromLeft (num den : Z) : resizeFunc := fun disp _ =>
  {| Left := Left disp; Top := Top disp;
     Right := add32 (Left disp) (wrap32 (Z.quot (mul32 (Width disp) num) den));
     Bottom := Bottom disp |}.

(** Modelled from the spec: see [fromLeft]. *)
Definition fromRight (num den : Z) : resizeFunc := fun disp _ =>
  {| Left := sub32 (Right disp) (wrap32 (Z.quot (mul32 (Width disp) num) den));
     Top := Top disp; Right := Right disp; Bottom := Bottom disp |}.

(** Modelled from the spec: see [fromLeft]. *)
Definition fromTop (num den : Z) : resizeFunc := fun disp _ =>
  {| Left := Left disp; Top := Top disp; Right := Right disp;
     Bottom := add32 (Top disp) (wrap32 (Z.quot (mul32 (Height disp) num) den)) |}.

(** Modelled from the spec: see [fromLeft]. *)
Definition fromBottom (num den : Z) : resizeFunc := fun disp _ =>
  {| Left := Left disp;
     Top := sub32 (Bottom disp) (wrap32 (Z.quot (mul32 (Height disp) num) den));
     Right := Right disp; Bottom := Bottom disp |}.

(** Modelled from the spec: the centre third of the thirds cycle. *)
Definition centreThird : resizeFunc := fun disp _ =>
  {| Left := add32 (Left disp) (wrap32 (Z.quot (Width disp) 3));
     Top := Top disp;
     Right := add32 (Left disp) (wrap32 (Z.quot (mul32 (Width disp) 2) 3));
     Bottom := Bottom disp |}.

Definition layouts : Layouts :=
  {| leftHalf := fromLeft 1 2; leftTwoThirds := fromLeft 2 3; leftOneThirds := fromLeft 1 3;
     rightHalf := fromRight 1 2; rightTwoThirds := fromRight 2 3; rightOneThirds := fromRight 1 3;
     topHalf := fromTop 1 2; topTwoThirds := fromTop 2 3; topOneThirds := fromTop 1 3;
     bottomHalf := fromBottom 1 2; bottomTwoThirds := fromBottom 2 3;
     bottomOneThirds := fromBottom 1 3;
     middleThirds := centreThird |}.

Definition workArea : RECT := {| Left := 0; Top := 0; Right := 1920; Bottom := 1080 |}.

(** The work area of monitor 11 is [workArea]; those of 22 and 33 lie to
    its right. *)
Definition workAreaOf (m : HMONITOR) : RECT :=
  if m =? 22 then {| Left := 1920; Top := 0; Right := 3840; Bottom := 1080 |}
  else if m =? 33 then {| Left := 3840; Top := 0; Right := 5760; Bottom := 1080 |}
  else workArea.
Definition windowRect : RECT := {| Left := 100; Top := 100; Right := 900; Bottom := 700 |}.
Definition leftHalfRect : RECT := {| Left := 0; Top := 0; Right := 960; Bottom := 1080 |}.

(** A desktop with three monitors [[11; 22; 33]] at 96 DPI whose foreground
    window is [fg], hosted on monitor [host] with outer rectangle and
    visual frame [rect]; [zonable] and [queries] are the answers of
    [isZonableWindow] and of [GetMonitorInfo], and every other call
    succeeds. *)
Definition desktop (fg : HWND) (host : HMONITOR) (rect : RECT)
    (zonable queries : bool) : Platform :=
  {| GetForegroundWindow := fg;
     isZonableWindow := fun _ => zonable;
     GetWindowText := fun _ => "window"%string;
     GetWindowRect := fun _ => Some rect;
     GetWindowRect_after := fun _ => Some rect;
     MonitorFromWindow := fun _ => host;
     GetDeviceCaps_LOGPIXELSY := fun _ => 96;
     ReleaseDC := fun _ => true;
     GetMonitorInfo := fun m => if queries then Some (workAreaOf m) else None;
     DwmGetWindowAttributeEXTENDED_FRAME_BOUNDS := fun _ => (true, rect);
     GetDpiForWindow := fun _ => 96;
     EnumMonitors := [11; 22; 33];
     ShowWindow := fun _ _ => true;
     SetWindowPos := fun _ _ => true;
     GetLastError := 0 |}.

(** Windows 7 and 8 in the foreground. *)
Definition W1 : HWND := 7.
Definition W2 : HWND := 8.

End Sample.

(** ** Notions used to state the properties *)

(** The DPI round trip: from 100 to 150 and back from 150 to 100. *)
Definition dpiRoundTrip (r : RECT) : result RECT :=
  let? s := resizeForDpi r 100 150 in
  resizeForDpi s 150 100.

(** Every coordinate of [r'] is at most one pixel away from that of [r]. *)
Definition within_one_pixel (r r' : RECT) : Prop :=
  -1 <= Left r' - Left r <= 1 /\ -1 <= Top r' - Top r <= 1 /\
  -1 <= Right r' - Right r <= 1 /\ -1 <= Bottom r' - Bottom r <= 1.

(** Multiplying every coordinate of [r] by 150 stays within [int32]. *)
Definition scales_within_int32 (r : RECT) : Prop :=
  in_int32 (Left r * 150) /\ in_int32 (Top r * 150) /\
  in_int32 (Right r * 150) /\ in_int32 (Bottom r * 150).

(** Field-wise equality of two rectangles. *)
Definition fieldwise_equal (x y : RECT) : Prop :=
  Left x = Left y /\ Top x = Top y /\ Right x = Right y /\ Bottom x = Bottom y.

Definition noExtents : extents := {| lExtra := 0; rExtra := 0; tExtra := 0; bExtra := 0 |}.

(** The placement gets as far as line 275 (resp. 203), where it records the
    window: the three queries succeed and neither the DPI division nor the
    first use of [rect] panics. *)
Definition reachesRecording (P : Platform) (hwnd : HWND) (rect : option RECT)
    (mon : HMONITOR) : bool :=
  ReleaseDC P hwnd
  && negb (is_nil (GetMonitorInfo P mon))
  && fst (DwmGetWindowAttributeEXTENDED_FRAME_BOUNDS P hwnd)
  && negb (wrap32 (GetDpiForWindow P hwnd) =? 0)
  && negb (is_nil rect).

(** [resize] on [hwnd] gets as far as recording the window. *)
Definition recorded (P : Platform) (hwnd : HWND) : bool :=
  isZonableWindow P hwnd
  && reachesRecording P hwnd (GetWindowRect P hwnd) (MonitorFromWindow P hwnd).

(** The globals once lines 63-65 have run against the window [hwnd]. *)
Definition resetFor (L : Layouts) (hwnd : HWND) (g : globals) : globals :=
  if lastResized g =? hwnd then g
  else {| lastResized := lastResized g; edgeFuncTurn := make (length (edgeFuncs L)) |}.

(** The variant [funcs[i][t % len(funcs[i])]] of the table [edgeFuncs]. *)
Definition variant (L : Layouts) (i t : Z) : option resizeFunc :=
  match edgeFuncs L !! Z.to_nat i with
  | Some row => row !! Z.to_nat (Z.rem t (Z.of_nat (length row)))
  | None => None
  end.

(** The turn indices once lines 70-75 have run for the action [i]. *)
Definition bump (i : Z) (turns : list Z) : list Z :=
  match turns !! Z.to_nat i with
  | Some t =>
      let turns' := <[Z.to_nat i := add64 t 1]> turns in
      zeroOthers i (length turns') 0 turns'
  | None => turns
  end.

(** The globals [resize] hands back when it is entered with [g]. *)
Definition handedBack (P : Platform) (hwnd : HWND) (g : globals) : globals :=
  if recorded P hwnd
  then {| lastResized := hwnd; edgeFuncTurn := edgeFuncTurn g |}
  else g.

(** The shape the turn indices keep: five of them, at most one non-zero. *)
Definition one_cycle_at_most (turns : list Z) : Prop :=
  length turns = 5%nat /\ (nonzeroTurns turns <= 1)%nat.

(** The answers under which no run-time panic other than that of the NULL
    check can occur during an invocation: the two [GetWindowRect] calls
    return a rectangle, the window DPI is not zero as an [int32], and the
    enumeration yields at least one monitor. *)
Definition faultFree (P : Platform) : Prop :=
  let hwnd := GetForegroundWindow P in
  GetWindowRect P hwnd <> None /\
  GetWindowRect_after P hwnd <> None /\
  wrap32 (GetDpiForWindow P hwnd) <> 0 /\
  EnumMonitors P <> [] /\
  Z.of_nat (length (EnumMonitors P)) < 2 ^ 62.

(** Five turn indices, none negative. *)
Definition turns_in_range (g : globals) : Prop :=
  length (edgeFuncTurn g) = 5%nat /\ Forall (fun t => 0 <= t) (edgeFuncTurn g).

Definition null_window : string := "foreground window is NULL"%string.

(** A rectangle of screen size: ordered corners within 2^29 pixels of the
    origin, so that no sum or difference of two coordinates leaves [int32]. *)
Definition screen_rect (r : RECT) : Prop :=
  - 2 ^ 29 <= Left r /\ Left r <= Right r /\ Right r <= 2 ^ 29 /\
  - 2 ^ 29 <= Top r /\ Top r <= Bottom r /\ Bottom r <= 2 ^ 29.

(** Multiplying every coordinate of [r] by [d] stays within [int32]. *)
Definition scales_by (d : Z) (r : RECT) : Prop :=
  in_int32 (Left r * d) /\ in_int32 (Top r * d) /\
  in_int32 (Right r * d) /\ in_int32 (Bottom r * d).

(** The events that ask something of the window manager. *)
Definition is_call (e : event) : bool :=
  match e with
  | Call_ShowWindow _ _ | Call_SetWindowPos _ _ _ _ _ => true
  | Printf _ | Println _ | Printf_err _ _ => false
  end.

(** The request [SetWindowPos] receives for the rectangle [r]. *)
Definition requestFor (hwnd : HWND) (r : RECT) : event :=
  Call_SetWindowPos hwnd (Left r) (Top r) (Width r) (Height r).

(** The three queries of lines 242-253 succeed for the monitor [mon]. *)
Definition queriesAnswered (P : Platform) (hwnd : HWND) (mon : HMONITOR)
    (rcWork frame : RECT) : Prop :=
  ReleaseDC P hwnd = true /\
  GetMonitorInfo P mon = Some rcWork /\
  DwmGetWindowAttributeEXTENDED_FRAME_BOUNDS P hwnd = (true, frame).

(** The lines a placement prints before it computes the target. *)
Definition preamble : list event :=
  [Printf "> window: 0x%x %#v (w:%d,h:%d) mon=0x%X(@ display DPI:%d)\n";
   Printf "> DWM frame:        %#v (W:%d,H:%d) @ window DPI=%v\n";
   Printf "> DPI-less frame:   %#v (W:%d,H:%d)\n"].



(** The globals after exactly [n] hotkey invocations from startup. *)
Inductive reachableIn (L : Layouts) : nat -> globals -> Prop :=
| reachableIn_startup : reachableIn L 0 (startup L)
| reachableIn_fires n g g' :
    reachableIn L n g -> fires L g g' -> reachableIn L (S n) g'.

(** The monitor reached from [m] by [n] successive selections over the same
    enumeration. *)
Fixpoint hops (monitors : list HMONITOR) (n : nat) (m : HMONITOR) : result HMONITOR :=
  match n with
  | O => Ok m
  | S n' =>
      let? m' := selectMonitor monitors m in
      hops monitors n' m'
  end.

(** Lines 105-110 of [main]: the hotkeys whose registration fails are
    appended to [failedHotKeys] in table order.  [RegisterHotKey] belongs to
    another file of the package; its answers are a parameter. *)
Definition collectFailed (RegisterHotKey : HotKey -> bool) (table : list HotKey) :
    list HotKey :=
  fold_left
    (fun failedHotKeys hk =>
       if negb (RegisterHotKey hk) then failedHotKeys ++ [hk] else failedHotKeys)
    table [].

(** The line feed of Go's ["\n"]. *)
Definition nl : string := String (Ascii.ascii_of_nat 10) EmptyString.

Definition failedHeader : string :=
  String.append "The following hotkey(s) are in use by another process:" (String.append nl nl).

Definition failedFooter : string :=
  String.append nl
    "To use these hotkeys in RectangleWin, close the other process using the key combination(s).".

(** The line of the message for one hotkey; [Describe] belongs to another
    file of the package. *)
Definition failedLine (Describe : HotKey -> string) (hk : HotKey) : string :=
  String.append (String.append "  - " (Describe hk)) nl.

(** Lines 111-118 of [main]: the text handed to [showMessageBox], if any. *)
Definition failedMessage (Describe : HotKey -> string) (failedHotKeys : list HotKey) :
    option string :=
  if 0 <? Z.of_nat (length failedHotKeys) then
    let msg :=
      fold_left (fun msg hk => String.append msg (failedLine Describe hk))
        failedHotKeys failedHeader in
    Some (String.append msg failedFooter)
  else None.

(** ** Facts about the machine integers *)

Section IntFacts.

Lemma wrap32_small z : in_int32 z -> wrap32 z = z.
Proof.
  unfold in_int32, wrap32, wrap. intros H.
  change (2 ^ (32 - 1)) with 2147483648 in *.
  change (2 ^ 31) with 2147483648 in *.
  change (2 ^ 32) with 4294967296 in *.
  rewrite Z.mod_small; lia.
Qed.

Lemma wrap64_small z : in_int64 z -> wrap64 z = z.
Proof.
  unfold in_int64, wrap64, wrap. intros H.
  change (2 ^ (64 - 1)) with 9223372036854775808 in *.
  change (2 ^ 63) with 9223372036854775808 in *.
  change (2 ^ 64) with 18446744073709551616 in *.
  rewrite Z.mod_small; lia.
Qed.

Lemma wrap32_range z : in_int32 (wrap32 z).
Proof.
  unfold in_int32, wrap32, wrap.
  change (2 ^ (32 - 1)) with 2147483648.
  change (2 ^ 31) with 2147483648.
  change (2 ^ 32) with 4294967296.
  pose proof (Z.mod_pos_bound (z + 2147483648) 4294967296). lia.
Qed.

(** Wrapping an operand first does not change a wrapped sum. *)
Lemma wrap32_add_wrap32_l a b : wrap32 (wrap32 a + b) = wrap32 (a + b).
Proof.
  unfold wrap32, wrap.
  change (2 ^ (32 - 1)) with 2147483648.
  change (2 ^ 32) with 4294967296.
  f_equal.
  replace ((a + 2147483648) mod 4294967296 - 2147483648 + b + 2147483648)
    with ((a + 2147483648) mod 4294967296 + b) by lia.
  replace (a + b + 2147483648) with ((a + 2147483648) + b) by lia.
  now rewrite Z.add_mod_idemp_l by lia.
Qed.

Lemma sub32_diag a : sub32 a a = 0.
Proof. unfold sub32. now rewrite Z.sub_diag. Qed.

Lemma add32_neg32_diag a : add32 (neg32 a) a = 0.
Proof.
  unfold add32, neg32. rewrite wrap32_add_wrap32_l.
  now replace (- a + a) with 0 by lia.
Qed.

Lemma sub32_0_r a : in_int32 a -> sub32 a 0 = a.
Proof. intros H. unfold sub32. rewrite Z.sub_0_r. now apply wrap32_small. Qed.

Lemma add32_0_r a : in_int32 a -> add32 a 0 = a.
Proof. intros H. unfold add32. rewrite Z.add_0_r. now apply wrap32_small. Qed.

(** One coordinate through [x * 150 / 100] and back through [y * 100 / 150]. *)
Lemma dpi_coordinate_round_trip x :
  in_int32 (x * 150) ->
  exists y z,
    div32 (mul32 x 150) 100 = Ok y /\
    div32 (mul32 y 100) 150 = Ok z /\
    -1 <= z - x <= 1.
Proof.
  unfold in_int32. change (2 ^ 31) with 2147483648. intros H.
  assert (Hm : mul32 x 150 = x * 150).
  { unfold mul32. apply wrap32_small. unfold in_int32.
    change (2 ^ 31) with 2147483648. lia. }
  set (y := Z.quot (x * 150) 100).
  assert (Hy : -21474836 <= y <= 21474836)
    by (subst y; Z.to_euclidean_division_equations; lia).
  assert (Hw : wrap32 y = y).
  { apply wrap32_small. unfold in_int32. change (2 ^ 31) with 2147483648. lia. }
  assert (Hm2 : mul32 y 100 = y * 100).
  { unfold mul32. apply wrap32_small. unfold in_int32.
    change (2 ^ 31) with 2147483648. lia. }
  set (z := Z.quot (y * 100) 150).
  assert (Hz : -1 <= z - x <= 1)
    by (subst z y; Z.to_euclidean_division_equations; lia).
  exists y, z. unfold div32. simpl (100 =? 0). simpl (150 =? 0). cbv iota.
  rewrite Hm. fold y. rewrite Hw, Hm2. fold z.
  rewrite (wrap32_small z)
    by (unfold in_int32; change (2 ^ 31) with 2147483648; lia).
  auto.
Qed.

End IntFacts.

(** ** Geometry *)

Lemma DeepEqual_true_iff (x y : RECT) : DeepEqual x y = true <-> fieldwise_equal x y.
Proof.
  unfold DeepEqual, fieldwise_equal.
  rewrite !andb_true_iff, !Z.eqb_eq. tauto.
Qed.

(** C10.  [sameRect a b] always returns (it never dereferences a nil
    pointer), and it returns true exactly when both pointers are non-nil and
    the rectangles they point to are equal field by field; with a nil
    pointer on either side it returns false. *)
Theorem sameRect_true_iff (a b : option RECT) :
  exists res : bool,
    sameRect a b = Ok res /\
    (res = true <->
       exists x y, a = Some x /\ b = Some y /\ fieldwise_equal x y) /\
    (a = None \/ b = None -> res = false).
Proof.
  destruct a as [x |], b as [y |]; simpl.
  - exists (DeepEqual x y). split; [reflexivity | split].
    + rewrite DeepEqual_true_iff. split.
      * intros H. exists x, y. auto.
      * intros (x' & y' & Hx & Hy & H). now inversion Hx; inversion Hy; subst.
    + intros [H | H]; discriminate.
  - exists false. split; [reflexivity | split; [| reflexivity]].
    split; [discriminate |]. intros (x' & y' & _ & Hy & _). discriminate.
  - exists false. split; [reflexivity | split; [| reflexivity]].
    split; [discriminate |]. intros (x' & y' & Hx & _). discriminate.
  - exists false. split; [reflexivity | split; [| reflexivity]].
    split; [discriminate |]. intros (x' & y' & Hx & _). discriminate.
Qed.

(** C3 as stated fails: the product [Left * 150] of a rectangle at twenty
    million pixels leaves [int32], and the round trip lands more than
    twenty-eight million pixels away. *)
Lemma dpi_round_trip_overflows :
  let r := {| Left := 20000000; Top := 0; Right := 20000800; Bottom := 600 |} in
  exists r', dpiRoundTrip r = Ok r' /\ Left r' = -8633114 /\ ~ within_one_pixel r r'.
Proof.
  eexists. split; [vm_compute; reflexivity | split; [reflexivity |]].
  unfold within_one_pixel. simpl. lia.
Qed.

(** C3, amended.  For every rectangle whose coordinates times 150 stay
    within [int32], the rescaling from DPI 100 to 150 followed by the
    rescaling from 150 to 100 returns a rectangle whose four coordinates
    each differ from the original by at most one pixel. *)
Theorem dpi_round_trip_within_one_pixel (r : RECT) :
  scales_within_int32 r ->
  exists r', dpiRoundTrip r = Ok r' /\ within_one_pixel r r'.
Proof.
  intros (Hl & Ht & Hr & Hb).
  destruct (dpi_coordinate_round_trip _ Hl) as (l1 & l2 & El1 & El2 & Bl).
  destruct (dpi_coordinate_round_trip _ Ht) as (t1 & t2 & Et1 & Et2 & Bt).
  destruct (dpi_coordinate_round_trip _ Hr) as (r1 & r2 & Er1 & Er2 & Br).
  destruct (dpi_coordinate_round_trip _ Hb) as (b1 & b2 & Eb1 & Eb2 & Bb).
  exists {| Left := l2; Top := t2; Right := r2; Bottom := b2 |}.
  split.
  - unfold dpiRoundTrip, resizeForDpi.
    rewrite El1, Er1, Et1, Eb1. cbn [rbind Left Top Right Bottom].
    rewrite El2, Er2, Et2, Eb2. reflexivity.
  - unfold within_one_pixel. cbn [Left Top Right Bottom]. auto.
Qed.

Lemma dpi_round_trip_within_one_pixel_witness :
  scales_within_int32 Sample.windowRect /\
  exists r', dpiRoundTrip Sample.windowRect = Ok r' /\
             within_one_pixel Sample.windowRect r'.
Proof.
  assert (H : scales_within_int32 Sample.windowRect).
  { unfold scales_within_int32, in_int32. simpl. lia. }
  split; [exact H | exact (dpi_round_trip_within_one_pixel Sample.windowRect H)].
Defined.

(** C9.  When the DPI-normalised frame equals the window's outer rectangle,
    the four invisible-border extents are zero and the adjustment of lines
    270-273 leaves the layout's candidate rectangle as it is. *)
Theorem border_correction_without_border (f : resizeFunc) (rcWork rect resizedFrame : RECT) :
  resizedFrame = rect ->
  rect32 (f rcWork resizedFrame) ->
  borderExtents resizedFrame rect = noExtents /\
  adjustOffsets (f rcWork resizedFrame) (borderExtents resizedFrame rect)
  = f rcWork resizedFrame.
Proof.
  intros -> (Hl & Ht & Hr & Hb).
  assert (E : borderExtents rect rect = noExtents).
  { unfold borderExtents, noExtents.
    now rewrite !sub32_diag, !add32_neg32_diag. }
  split; [exact E |].
  rewrite E. unfold adjustOffsets, noExtents. cbn [lExtra rExtra tExtra bExtra].
  rewrite !sub32_0_r, !add32_0_r by assumption.
  now destruct (f rcWork rect).
Qed.

Lemma border_correction_without_border_witness :
  let f := leftHalf Sample.layouts in
  rect32 (f Sample.workArea Sample.windowRect) /\
  borderExtents Sample.windowRect Sample.windowRect = noExtents /\
  adjustOffsets (f Sample.workArea Sample.windowRect)
    (borderExtents Sample.windowRect Sample.windowRect)
  = f Sample.workArea Sample.windowRect.
Proof.
  assert (H : rect32 (leftHalf Sample.layouts Sample.workArea Sample.windowRect)).
  { unfold rect32, in_int32. vm_compute. intuition discriminate. }
  split; [exact H |].
  exact (border_correction_without_border (leftHalf Sample.layouts)
           Sample.workArea Sample.windowRect Sample.windowRect eq_refl H).
Defined.

(** ** Monitor selection *)

Section MonitorSelection.

Variable mon : HMONITOR.

(** [modNeg] returns the mathematical residue for a positive modulus. *)
Lemma modNeg_mod (v m : Z) :
  0 < m < 2 ^ 62 -> modNeg v m = Ok (v mod m).
Proof.
  change (2 ^ 62) with 4611686018427387904. intros Hm.
  unfold modNeg, rem64.
  replace (m =? 0) with false by (symmetry; apply Z.eqb_neq; lia).
  cbn [rbind].
  replace (m =? 0) with false by (symmetry; apply Z.eqb_neq; lia).
  f_equal.
  assert (Hr : - m < Z.rem v m < m).
  { pose proof (Z.rem_bound_abs v m ltac:(lia)). lia. }
  unfold add64. rewrite wrap64_small
    by (unfold in_int64; change (2 ^ 63) with 9223372036854775808; lia).
  rewrite Z.rem_mod_nonneg by lia.
  replace (Z.rem v m + m) with (v + (1 - Z.quot v m) * m)
    by (pose proof (Z.quot_rem' v m); lia).
  apply Z_mod_plus_full.
Qed.

(** The enumeration appends every handle and counts them. *)
Lemma enumerate_absent (l acc : list HMONITOR) (monitorIndex : Z) :
  ~ In mon l ->
  Z.of_nat (length acc + length l) < 2 ^ 63 ->
  fold_left (enumCallback mon) l (acc, monitorIndex, Z.of_nat (length acc))
  = (acc ++ l, monitorIndex, Z.of_nat (length acc + length l)).
Proof.
  change (2 ^ 63) with 9223372036854775808.
  revert acc. induction l as [| d l IH]; intros acc Hin Hlen.
  - simpl. now rewrite app_nil_r, Nat.add_0_r.
  - simpl in Hlen. cbn [fold_left]. unfold enumCallback at 2.
    destruct (Z.eqb_spec d mon) as [-> | Hd]; [exfalso; apply Hin; now left |].
    unfold add64. rewrite wrap64_small
      by (unfold in_int64; change (2 ^ 63) with 9223372036854775808; lia).
    replace (Z.of_nat (length acc) + 1) with (Z.of_nat (length (acc ++ [d])))
      by (rewrite length_app; simpl; lia).
    rewrite IH.
    + rewrite <- app_assoc. simpl. rewrite length_app. simpl.
      do 2 f_equal. lia.
    + intros H. apply Hin. now right.
    + rewrite length_app. simpl. lia.
Qed.

(** When [mon] is last seen at position [i], that position is recorded. *)
Lemma enumerate_present (l acc : list HMONITOR) (monitorIndex : Z) (i : nat) :
  l !! i = Some mon ->
  (forall j, (i < j)%nat -> l !! j <> Some mon) ->
  Z.of_nat (length acc + length l) < 2 ^ 63 ->
  fold_left (enumCallback mon) l (acc, monitorIndex, Z.of_nat (length acc))
  = (acc ++ l, Z.of_nat (length acc + i), Z.of_nat (length acc + length l)).
Proof.
  change (2 ^ 63) with 9223372036854775808.
  revert acc monitorIndex i. induction l as [| d l IH]; intros acc monitorIndex i Hi Hlast Hlen.
  - destruct i; discriminate.
  - simpl in Hlen. cbn [fold_left]. unfold enumCallback at 2.
    unfold add64. rewrite wrap64_small
      by (unfold in_int64; change (2 ^ 63) with 9223372036854775808; lia).
    replace (Z.of_nat (length acc) + 1) with (Z.of_nat (length (acc ++ [d])))
      by (rewrite length_app; simpl; lia).
    destruct i as [| i].
    + simpl in Hi. injection Hi as ->. rewrite Z.eqb_refl.
      rewrite enumerate_absent.
      * rewrite <- app_assoc. simpl. rewrite length_app. simpl.
        rewrite Nat.add_0_r. do 2 f_equal. lia.
      * intros Hin. apply list_elem_of_In, list_elem_of_lookup in Hin.
        destruct Hin as [j Hj]. apply (Hlast (S j)); [lia | exact Hj].
      * rewrite length_app. simpl. lia.
    + simpl in Hi. rewrite (IH _ _ i Hi).
      * rewrite <- app_assoc. simpl. rewrite length_app. simpl.
        f_equal; [f_equal |]; f_equal; lia.
      * intros j Hj. apply (Hlast (S j)). lia.
      * rewrite length_app. simpl. lia.
Qed.

(** The index of a slice within its bounds. *)
Lemma index_in_range {A : Type} (s : list A) (k : Z) :
  0 <= k < Z.of_nat (length s) ->
  exists x, s !! Z.to_nat k = Some x /\ index s k = Ok x.
Proof.
  intros Hk. unfold index.
  destruct (Z.ltb_spec k 0) as [? | _]; [lia |].
  destruct (s !! Z.to_nat k) as [x |] eqn:E.
  - now exists x.
  - apply lookup_ge_None in E. lia.
Qed.

(** The monitor chosen when [mon] is last enumerated at position [i]. *)
Lemma selectMonitor_present (monitors : list HMONITOR) (i : nat) :
  Z.of_nat (length monitors) < 2 ^ 62 ->
  monitors !! i = Some mon ->
  (forall j, (i < j)%nat -> monitors !! j <> Some mon) ->
  selectMonitor monitors mon
  = index monitors ((Z.of_nat i - 1) mod Z.of_nat (length monitors)).
Proof.
  change (2 ^ 62) with 4611686018427387904. intros Hlen Hi Hlast.
  pose proof (lookup_lt_Some _ _ _ Hi) as Hlt.
  unfold selectMonitor.
  assert (Hb : Z.of_nat (length (@nil HMONITOR) + length monitors) < 2 ^ 63)
    by (simpl; change (2 ^ 63) with 9223372036854775808; lia).
  pose proof (enumerate_present monitors [] 0 i Hi Hlast Hb) as E.
  cbn [length app Nat.add] in E. change (Z.of_nat 0) with 0 in E. rewrite E.
  unfold sub64. rewrite wrap64_small
    by (unfold in_int64; change (2 ^ 63) with 9223372036854775808; lia).
  rewrite modNeg_mod by (change (2 ^ 62) with 4611686018427387904; lia).
  reflexivity.
Qed.

(** The monitor chosen when [mon] is not enumerated at all. *)
Lemma selectMonitor_absent (monitors : list HMONITOR) :
  monitors <> [] ->
  Z.of_nat (length monitors) < 2 ^ 62 ->
  ~ In mon monitors ->
  selectMonitor monitors mon = index monitors (Z.of_nat (length monitors) - 1).
Proof.
  change (2 ^ 62) with 4611686018427387904. intros Hne Hlen Hin.
  assert (0 < length monitors)%nat by (destruct monitors; [congruence | simpl; lia]).
  unfold selectMonitor.
  assert (Hb : Z.of_nat (length (@nil HMONITOR) + length monitors) < 2 ^ 63)
    by (simpl; change (2 ^ 63) with 9223372036854775808; lia).
  pose proof (enumerate_absent monitors [] 0 Hin Hb) as E.
  cbn [length app Nat.add] in E. change (Z.of_nat 0) with 0 in E. rewrite E.
  change (sub64 0 1) with (-1).
  rewrite modNeg_mod by (change (2 ^ 62) with 4611686018427387904; lia).
  replace (-1 mod Z.of_nat (length monitors)) with (Z.of_nat (length monitors) - 1);
    [reflexivity |].
  apply (Z.mod_unique _ _ (-1)); lia.
Qed.

End MonitorSelection.



(** The wrap-around of the spec's example: with three distinct monitors, a
    window on the first goes to the third and a window on the third goes to
    the second. *)
Corollary monitor_wraparound (M0 M1 M2 : HMONITOR) :
  M0 <> M1 -> M0 <> M2 -> M1 <> M2 ->
  selectMonitor [M0; M1; M2] M0 = Ok M2 /\ selectMonitor [M0; M1; M2] M2 = Ok M1.
Proof.
  intros H01 H02 H12. split.
  - rewrite (selectMonitor_present M0 [M0; M1; M2] 0).
    + reflexivity.
    + vm_compute. reflexivity.
    + reflexivity.
    + intros [| [| [| j]]] Hj; simpl; [lia | | | discriminate]; congruence.
  - rewrite (selectMonitor_present M2 [M0; M1; M2] 2).
    + reflexivity.
    + vm_compute. reflexivity.
    + reflexivity.
    + intros [| [| [| j]]] Hj; simpl; [lia | lia | lia | discriminate].
Qed.

(** C7 as stated fails: with the hosting monitor 99 absent from the
    enumerated [[11; 22; 33]], the operation returns no error at all; it
    moves the window, centred, onto the work area of monitor 33. *)
Lemma stale_monitor_is_not_an_error :
  let P := Sample.desktop Sample.W1 99 Sample.windowRect true true in
  ~ In 99 (EnumMonitors P) /\
  selectMonitor (EnumMonitors P) 99 = Ok 33 /\
  outcome (moveToNextMonitor P Sample.W1) (startup Sample.layouts)
  = Ok (true, None) /\
  In (Call_SetWindowPos Sample.W1 4400 240 800 600)
     (trace (moveToNextMonitor P Sample.W1) (startup Sample.layouts)).
Proof.
  simpl. split; [intuition discriminate |].
  split; [reflexivity |]. split; [reflexivity |].
  vm_compute. tauto.
Qed.

(** C7, amended.  If the hosting monitor is not found in a non-empty
    enumerated list, no error is raised for it: the recorded index keeps its
    initial value 0, the monitor selected is the last of the list, and the
    operation goes on with that monitor's work area. *)
Theorem stale_monitor_selects_last (P : Platform) (hwnd : HWND) :
  isZonableWindow P hwnd = true ->
  EnumMonitors P <> [] ->
  Z.of_nat (length (EnumMonitors P)) < 2 ^ 62 ->
  ~ In (MonitorFromWindow P hwnd) (EnumMonitors P) ->
  exists target,
    EnumMonitors P !! (length (EnumMonitors P) - 1)%nat = Some target /\
    selectMonitor (EnumMonitors P) (MonitorFromWindow P hwnd) = Ok target /\
    forall g,
      moveToNextMonitor P hwnd g
      = placeOn P hwnd (GetWindowRect P hwnd) (GetDeviceCaps_LOGPIXELSY P hwnd)
          target center g.
Proof.
  intros Hz Hne Hlen Hin.
  assert (Hpos : (0 < length (EnumMonitors P))%nat)
    by (destruct (EnumMonitors P); [congruence | simpl; lia]).
  destruct (index_in_range (EnumMonitors P) (Z.of_nat (length (EnumMonitors P)) - 1))
    as (target & Et & Ei); [lia |].
  exists target.
  replace (Z.to_nat (Z.of_nat (length (EnumMonitors P)) - 1))
    with (length (EnumMonitors P) - 1)%nat in Et by lia.
  assert (Es : selectMonitor (EnumMonitors P) (MonitorFromWindow P hwnd) = Ok target)
    by (rewrite selectMonitor_absent by assumption; exact Ei).
  split; [exact Et | split; [exact Es |]].
  intros g. unfold moveToNextMonitor. rewrite Hz, Es. cbn [negb].
  unfold bind, lift.
  destruct (placeOn P hwnd (GetWindowRect P hwnd) (GetDeviceCaps_LOGPIXELSY P hwnd)
              target center g) as [[r g'] t].
  reflexivity.
Qed.

Lemma stale_monitor_selects_last_witness :
  let P := Sample.desktop Sample.W1 99 Sample.windowRect true true in
  exists target,
    EnumMonitors P !! (length (EnumMonitors P) - 1)%nat = Some target /\
    selectMonitor (EnumMonitors P) (MonitorFromWindow P Sample.W1) = Ok target /\
    forall g,
      moveToNextMonitor P Sample.W1 g
      = placeOn P Sample.W1 (GetWindowRect P Sample.W1)
          (GetDeviceCaps_LOGPIXELSY P Sample.W1) target center g.
Proof.
  apply (stale_monitor_selects_last
           (Sample.desktop Sample.W1 99 Sample.windowRect true true) Sample.W1).
  - reflexivity.
  - discriminate.
  - vm_compute. reflexivity.
  - simpl. intuition discriminate.
Defined.

(** ** What one placement does to the globals *)

Section Placement.

Variable P : Platform.

Lemma resizeForDpi_defined (src : RECT) (from to : Z) :
  from <> 0 -> exists r, resizeForDpi src from to = Ok r.
Proof.
  intros H. unfold resizeForDpi, div32.
  replace (from =? 0) with false by (symmetry; now apply Z.eqb_neq).
  cbn [rbind]. eauto.
Qed.

Lemma resizeForDpi_zero (src : RECT) (to : Z) :
  resizeForDpi src 0 to = Panic divide_by_zero.
Proof. reflexivity. Qed.

(** A run of the common part depends on the globals only through the
    globals it hands back: it overwrites [lastResized] exactly when
    [reachesRecording] holds and never touches the turn indices. *)
Lemma placeOn_run hwnd rect dpi mon f (g g0 : globals) :
  placeOn P hwnd rect dpi mon f g
  = (outcome (placeOn P hwnd rect dpi mon f) g0,
     (if reachesRecording P hwnd rect mon
      then {| lastResized := hwnd; edgeFuncTurn := edgeFuncTurn g |}
      else g),
     trace (placeOn P hwnd rect dpi mon f) g0).
Proof.
  unfold outcome, after, trace, reachesRecording, placeOn, place, moveWindow.
  destruct (ReleaseDC P hwnd); cbn [negb andb]; [| destruct g; reflexivity].
  destruct (GetMonitorInfo P mon) as [rcWork |]; cbn [is_nil negb andb];
    [| destruct g; reflexivity].
  destruct (DwmGetWindowAttributeEXTENDED_FRAME_BOUNDS P hwnd) as [ok frame].
  destruct ok; cbn [negb andb fst]; [| destruct g; reflexivity].
  unfold bind, lift, emit, ret, set_lastResized.
  destruct (Z.eqb_spec (wrap32 (GetDpiForWindow P hwnd)) 0) as [E | E]; cbn [negb andb].
  { rewrite E, resizeForDpi_zero. destruct g; reflexivity. }
  destruct (resizeForDpi_defined frame _ (wrap32 dpi) E) as [a ->].
  destruct rect as [r |]; cbn [deref is_nil negb sameRect rbind];
    [| destruct g; reflexivity].
  destruct (DeepEqual r (adjustOffsets (f rcWork a) (borderExtents a r)));
    [reflexivity |].
  destruct (ShowWindow P hwnd SW_SHOWNORMAL); cbn [negb]; [| reflexivity].
  destruct (SetWindowPos P hwnd (adjustOffsets (f rcWork a) (borderExtents a r)));
    cbn [negb]; [| reflexivity].
  destruct (GetWindowRect_after P hwnd); reflexivity.
Qed.

Lemma resize_run hwnd f (g g0 : globals) :
  resize P hwnd f g
  = (outcome (resize P hwnd f) g0,
     (if recorded P hwnd
      then {| lastResized := hwnd; edgeFuncTurn := edgeFuncTurn g |}
      else g),
     trace (resize P hwnd f) g0).
Proof.
  unfold recorded, outcome, trace, resize.
  destruct (isZonableWindow P hwnd); cbn [negb andb]; [| reflexivity].
  rewrite (placeOn_run _ _ _ _ _ g g0), (placeOn_run _ _ _ _ _ g0 g0).
  reflexivity.
Qed.

Lemma moveToNextMonitor_run hwnd (g g0 : globals) :
  exists rec : bool,
    moveToNextMonitor P hwnd g
    = (outcome (moveToNextMonitor P hwnd) g0,
       (if rec
        then {| lastResized := hwnd; edgeFuncTurn := edgeFuncTurn g |}
        else g),
       trace (moveToNextMonitor P hwnd) g0).
Proof.
  unfold outcome, trace, moveToNextMonitor.
  destruct (isZonableWindow P hwnd); cbn [negb]; [| now exists false].
  unfold bind, lift.
  destruct (selectMonitor (EnumMonitors P) (MonitorFromWindow P hwnd)) as [m | msg];
    [| now exists false].
  exists (reachesRecording P hwnd (GetWindowRect P hwnd) m).
  rewrite (placeOn_run _ _ _ _ _ g g0), (placeOn_run _ _ _ _ _ g0 g0).
  reflexivity.
Qed.

End Placement.

(** ** The cycle closure *)

Section Cycle.

Variable L : Layouts.
Variable P : Platform.

Lemma index_lookup {A : Type} (s : list A) (k : Z) (x : A) :
  0 <= k -> s !! Z.to_nat k = Some x -> index s k = Ok x.
Proof.
  intros Hk E. unfold index.
  destruct (Z.ltb_spec k 0) as [? | _]; [lia |]. now rewrite E.
Qed.

Lemma reset_run (g : globals) :
  (if negb (lastResized g =? GetForegroundWindow P)
   then set_turns (make (length (edgeFuncs L))) else ret tt) g
  = (Ok tt, resetFor L (GetForegroundWindow P) g, []).
Proof.
  unfold resetFor. now destruct (lastResized g =? GetForegroundWindow P).
Qed.

Lemma edgeFuncs_rows (i : Z) (row : list resizeFunc) :
  edgeFuncs L !! Z.to_nat i = Some row -> length row = 3%nat /\ (Z.to_nat i < 5)%nat.
Proof.
  intros E. apply lookup_lt_Some in E as Hlt. split; [| exact Hlt].
  unfold edgeFuncs in E.
  destruct (Z.to_nat i) as [| [| [| [| [| n]]]]]; simpl in E;
    try discriminate; now injection E as <-.
Qed.

(** One press of the action [i], in terms of the placement it performs. *)
Lemma cycleEdgeFuncs_run (i t : Z) (f : resizeFunc) (g : globals) :
  let hwnd := GetForegroundWindow P in
  let g0 := resetFor L hwnd g in
  let g1 := handedBack P hwnd g0 in
  hwnd <> 0 ->
  0 <= i -> 0 <= Z.rem t 3 ->
  edgeFuncTurn g0 !! Z.to_nat i = Some t ->
  variant L i t = Some f ->
  cycleEdgeFuncs L P i g
  = match outcome (resize P hwnd f) g0 with
    | Ok (_, Some err) =>
        (Ok tt, g1, trace (resize P hwnd f) g0 ++ [Printf_err "warn: resize: %v\n" err])
    | Ok (_, None) =>
        (Ok tt,
         {| lastResized := lastResized g1; edgeFuncTurn := bump i (edgeFuncTurn g1) |},
         trace (resize P hwnd f) g0)
    | Panic msg => (Panic msg, g1, trace (resize P hwnd f) g0)
    end.
Proof.
  intros hwnd g0 g1 Hh Hi Ht Et Ef.
  unfold variant in Ef.
  destruct (edgeFuncs L !! Z.to_nat i) as [row |] eqn:Erow; [| discriminate].
  destruct (edgeFuncs_rows i row Erow) as [Hrow _].
  rewrite Hrow in Ef. change (Z.of_nat 3) with 3 in Ef.
  unfold cycleEdgeFuncs, cycleFuncs. fold hwnd.
  replace (hwnd =? 0) with false by (symmetry; now apply Z.eqb_neq).
  unfold bind at 1. unfold get at 1.
  unfold bind at 1. unfold hwnd at 1. rewrite reset_run. fold hwnd. fold g0.
  unfold bind, lift, get.
  rewrite (index_lookup _ _ _ Hi Erow).
  rewrite (index_lookup _ _ _ Hi Et).
  rewrite Hrow. change (rem64 t (Z.of_nat 3)) with (@Ok Z (Z.rem t 3)).
  cbv beta iota.
  rewrite (index_lookup _ _ _ Ht Ef).
  rewrite (resize_run P hwnd f g0 g0). fold (handedBack P hwnd g0). fold g1.
  assert (Et1 : edgeFuncTurn g1 !! Z.to_nat i = Some t).
  { subst g1. unfold handedBack. now destruct (recorded P hwnd). }
  destruct (outcome (resize P hwnd f) g0) as [[moved [err |]] | msg]; cbn [snd].
  - unfold emit. cbn [app]. reflexivity.
  - rewrite (index_lookup _ _ _ Hi Et1). unfold set_turns. cbn [edgeFuncTurn lastResized app].
    rewrite app_nil_r. unfold bump. rewrite Et1. reflexivity.
  - reflexivity.
Qed.

(** A negative turn index whose remainder is negative stops the press at
    the indexing of the row. *)
Lemma cycleEdgeFuncs_negative (i t : Z) (g : globals) :
  let hwnd := GetForegroundWindow P in
  let g0 := resetFor L hwnd g in
  hwnd <> 0 ->
  0 <= i -> Z.rem t 3 < 0 ->
  edgeFuncTurn g0 !! Z.to_nat i = Some t ->
  (Z.to_nat i < 5)%nat ->
  cycleEdgeFuncs L P i g = (Panic index_out_of_range, g0, []).
Proof.
  intros hwnd g0 Hh Hi Ht Et Hlt.
  destruct (edgeFuncs L !! Z.to_nat i) as [row |] eqn:Erow.
  2:{ apply lookup_ge_None in Erow. simpl in Erow. lia. }
  destruct (edgeFuncs_rows i row Erow) as [Hrow _].
  unfold cycleEdgeFuncs, cycleFuncs. fold hwnd.
  replace (hwnd =? 0) with false by (symmetry; now apply Z.eqb_neq).
  unfold bind at 1. unfold get at 1.
  unfold bind at 1. unfold hwnd at 1. rewrite reset_run. fold hwnd. fold g0.
  unfold bind, lift, get.
  rewrite (index_lookup _ _ _ Hi Erow).
  rewrite (index_lookup _ _ _ Hi Et).
  rewrite Hrow. change (rem64 t (Z.of_nat 3)) with (@Ok Z (Z.rem t 3)).
  cbv beta iota.
  unfold index at 1.
  destruct (Z.ltb_spec (Z.rem t 3) 0) as [_ | ?]; [reflexivity | lia].
Qed.

(** With a NULL foreground window the press panics at line 61. *)
Lemma cycleEdgeFuncs_null (i : Z) (g : globals) :
  GetForegroundWindow P = 0 ->
  cycleEdgeFuncs L P i g = (Panic null_window, g, []).
Proof.
  intros E. unfold cycleEdgeFuncs, cycleFuncs. now rewrite E.
Qed.

(** Lines 70-75 on the five turn indices: the index of the action is one
    more and the four others are zero. *)
Lemma bump_five (i t : Z) (turns : list Z) :
  length turns = 5%nat -> 0 <= i < 5 ->
  turns !! Z.to_nat i = Some t ->
  bump i turns = <[Z.to_nat i := add64 t 1]> (make 5).
Proof.
  intros Hlen Hi Et. unfold bump. rewrite Et.
  destruct turns as [| a [| b [| c [| d [| e [| x turns]]]]]]; try discriminate.
  assert (Hc : i = 0 \/ i = 1 \/ i = 2 \/ i = 3 \/ i = 4) by lia.
  destruct Hc as [-> | [-> | [-> | [-> | ->]]]]; reflexivity.
Qed.

Lemma resetFor_turns (hwnd : HWND) (g : globals) :
  edgeFuncTurn (resetFor L hwnd g)
  = if lastResized g =? hwnd then edgeFuncTurn g else make 5.
Proof. unfold resetFor. now destruct (lastResized g =? hwnd). Qed.

Lemma resetFor_lastResized (hwnd : HWND) (g : globals) :
  lastResized (resetFor L hwnd g) = lastResized g.
Proof. unfold resetFor. now destruct (lastResized g =? hwnd). Qed.

Lemma handedBack_turns (hwnd : HWND) (g : globals) :
  edgeFuncTurn (handedBack P hwnd g) = edgeFuncTurn g.
Proof. unfold handedBack. now destruct (recorded P hwnd). Qed.

Lemma handedBack_lastResized (hwnd : HWND) (g : globals) :
  lastResized (handedBack P hwnd g)
  = if recorded P hwnd then hwnd else lastResized g.
Proof. unfold handedBack. now destruct (recorded P hwnd). Qed.

(** Every row of the table has a variant for every non-negative remainder. *)
Lemma variant_defined (i t : Z) :
  0 <= i < 5 -> 0 <= Z.rem t 3 -> exists f, variant L i t = Some f.
Proof.
  intros Hi Ht. unfold variant.
  destruct (edgeFuncs L !! Z.to_nat i) as [row |] eqn:Erow.
  - destruct (edgeFuncs_rows i row Erow) as [Hrow _]. rewrite Hrow.
    change (Z.of_nat 3) with 3.
    destruct (row !! Z.to_nat (Z.rem t 3)) as [f |] eqn:Ef; [now exists f |].
    apply lookup_ge_None in Ef.
    pose proof (Z.rem_bound_abs t 3 ltac:(lia)). lia.
  - apply lookup_ge_None in Erow. simpl in Erow. lia.
Qed.

(** The turn indices a press of the action [i] can leave behind. *)
Lemma cycleEdgeFuncs_turns (i : Z) (g : globals) :
  length (edgeFuncTurn g) = 5%nat -> 0 <= i < 5 ->
  let ts := edgeFuncTurn (after (cycleEdgeFuncs L P i) g) in
  ts = edgeFuncTurn g \/ ts = make 5 \/ exists v, ts = <[Z.to_nat i := v]> (make 5).
Proof.
  intros Hlen Hi ts. subst ts.
  destruct (Z.eq_dec (GetForegroundWindow P) 0) as [E0 | Hh].
  { unfold after. rewrite (cycleEdgeFuncs_null i g E0). now left. }
  set (hwnd := GetForegroundWindow P) in *.
  set (g0 := resetFor L hwnd g).
  assert (Hg0 : edgeFuncTurn g0 = edgeFuncTurn g \/ edgeFuncTurn g0 = make 5).
  { subst g0. rewrite resetFor_turns. destruct (lastResized g =? hwnd); auto. }
  assert (Hlen0 : length (edgeFuncTurn g0) = 5%nat)
    by (destruct Hg0 as [-> | ->]; [exact Hlen | reflexivity]).
  destruct (edgeFuncTurn g0 !! Z.to_nat i) as [t |] eqn:Et.
  2:{ apply lookup_ge_None in Et. lia. }
  destruct (Z_lt_le_dec (Z.rem t 3) 0) as [Hneg | Hpos].
  { unfold after.
    rewrite (cycleEdgeFuncs_negative i t g Hh ltac:(lia) Hneg Et ltac:(lia)).
    cbn [fst snd]. destruct Hg0; auto. }
  destruct (variant_defined i t Hi Hpos) as [f Ef].
  unfold after.
  rewrite (cycleEdgeFuncs_run i t f g Hh ltac:(lia) Hpos Et Ef).
  fold hwnd. fold g0.
  destruct (outcome (resize P hwnd f) g0) as [[moved [err |]] | msg];
    cbn [fst snd edgeFuncTurn]; rewrite ?handedBack_turns.
  - destruct Hg0; auto.
  - right. right. exists (add64 t 1).
    apply bump_five; [exact Hlen0 | exact Hi | exact Et].
  - destruct Hg0; auto.
Qed.

Lemma onMaximize_turns (g : globals) :
  edgeFuncTurn (after (onMaximize P) g) = edgeFuncTurn g.
Proof.
  unfold after, onMaximize, maximize, bind, set_lastResized, ret, emit.
  destruct (isZonableWindow P (GetForegroundWindow P)); cbn [negb]; [| reflexivity].
  destruct (ShowWindow P (GetForegroundWindow P) SW_MAXIMIZE); reflexivity.
Qed.

Lemma onMoveToMonitor_turns (g : globals) :
  edgeFuncTurn (after (onMoveToMonitor P) g) = edgeFuncTurn g.
Proof.
  unfold after, onMoveToMonitor.
  destruct (GetForegroundWindow P =? 0); [reflexivity |].
  unfold bind.
  destruct (moveToNextMonitor_run P (GetForegroundWindow P) g g) as [rec ->].
  destruct (outcome (moveToNextMonitor P (GetForegroundWindow P)) g)
    as [[moved [err |]] | msg]; cbn [snd fst emit ret]; now destruct rec.
Qed.

End Cycle.

(** ** The invariant of the turn indices *)

Lemma one_cycle_make : one_cycle_at_most (make 5).
Proof. split; [reflexivity | unfold nonzeroTurns; simpl; lia]. Qed.

Lemma one_cycle_single (i v : Z) :
  0 <= i < 5 -> one_cycle_at_most (<[Z.to_nat i := v]> (make 5)).
Proof.
  intros Hi.
  assert (Hc : i = 0 \/ i = 1 \/ i = 2 \/ i = 3 \/ i = 4) by lia.
  unfold one_cycle_at_most, nonzeroTurns.
  destruct Hc as [-> | [-> | [-> | [-> | ->]]]];
    (split; [reflexivity |]); simpl; destruct (v =? 0); simpl; lia.
Qed.

(** Every hotkey of the table keeps the shape of the turn indices. *)
Lemma fires_keeps_shape (L : Layouts) (g g' : globals) :
  one_cycle_at_most (edgeFuncTurn g) -> fires L g g' ->
  one_cycle_at_most (edgeFuncTurn g').
Proof.
  intros Hinv [P hk r t Hin Hrun].
  assert (Hafter : g' = after (callback hk) g) by (unfold after; now rewrite Hrun).
  subst g'. clear Hrun r t.
  assert (Hcycle : forall i, 0 <= i < 5 ->
            one_cycle_at_most (edgeFuncTurn (after (cycleEdgeFuncs L P i) g))).
  { intros i Hi.
    destruct (cycleEdgeFuncs_turns L P i g (proj1 Hinv) Hi) as [-> | [-> | [v ->]]].
    - exact Hinv.
    - exact one_cycle_make.
    - now apply one_cycle_single. }
  simpl in Hin.
  destruct Hin as [<- | [<- | [<- | [<- | [<- | [<- | [<- | []]]]]]]]; cbn [callback].
  - apply Hcycle. lia.
  - apply Hcycle. lia.
  - apply Hcycle. lia.
  - apply Hcycle. lia.
  - now rewrite onMaximize_turns.
  - apply Hcycle. lia.
  - now rewrite onMoveToMonitor_turns.
Qed.

Lemma reachable_shape (L : Layouts) (g : globals) :
  reachable L g -> one_cycle_at_most (edgeFuncTurn g).
Proof.
  induction 1 as [| g g' _ IH Hf].
  - exact one_cycle_make.
  - exact (fires_keeps_shape L g g' IH Hf).
Qed.

(** With at most one non-zero index among the five, a non-zero index at one
    position forces zero at every other. *)
Lemma one_cycle_others_zero (turns : list Z) (a b : nat) (x : Z) :
  one_cycle_at_most turns ->
  turns !! a = Some x -> x <> 0 -> a <> b -> (b < 5)%nat ->
  turns !! b = Some 0.
Proof.
  intros [Hlen Hcount] Ha Hx Hab Hb.
  destruct turns as [| t0 [| t1 [| t2 [| t3 [| t4 [| t5 turns]]]]]]; try discriminate.
  unfold nonzeroTurns in Hcount. simpl in Hcount.
  destruct a as [| [| [| [| [| a]]]]]; simpl in Ha; try discriminate; injection Ha as ->;
    (destruct (Z.eqb_spec x 0) as [? | _]; [contradiction |]);
    destruct b as [| [| [| [| [| b]]]]]; try lia; try contradiction; simpl;
    f_equal;
    repeat match type of Hcount with
           | context [?y =? 0] => destruct (Z.eqb_spec y 0); simpl in Hcount
           end;
    (assumption || lia).
Qed.

(** C4.  After any sequence of hotkey invocations from startup at most one
    of the five turn indices is non-zero; and when action [A] stands at 1, a
    press of another action [B] against the same window whose placement
    returns no error puts [A] back to 0 (and [B] at 1). *)
Theorem at_most_one_nonzero_turn (L : Layouts) (g : globals) :
  reachable L g ->
  (nonzeroTurns (edgeFuncTurn g) <= 1)%nat /\
  forall (P : Platform) (A B : Z) (f : resizeFunc) (moved : bool),
    let hwnd := GetForegroundWindow P in
    hwnd <> 0 -> lastResized g = hwnd ->
    0 <= A < 5 -> 0 <= B < 5 -> A <> B ->
    edgeFuncTurn g !! Z.to_nat A = Some 1 ->
    variant L B 0 = Some f ->
    outcome (resize P hwnd f) g = Ok (moved, None) ->
    edgeFuncTurn (after (cycleEdgeFuncs L P B) g) !! Z.to_nat A = Some 0 /\
    edgeFuncTurn (after (cycleEdgeFuncs L P B) g) !! Z.to_nat B = Some 1.
Proof.
  intros Hreach. pose proof (reachable_shape L g Hreach) as Hshape.
  split; [exact (proj2 Hshape) |].
  intros P A B f moved hwnd Hh Hsame HA HB HAB EA Ef Hres.
  assert (EB : edgeFuncTurn g !! Z.to_nat B = Some 0).
  { apply (one_cycle_others_zero _ (Z.to_nat A) _ 1 Hshape EA); lia. }
  assert (Eg0 : resetFor L hwnd g = g).
  { unfold resetFor. now replace (lastResized g =? hwnd) with true
      by (symmetry; now apply Z.eqb_eq). }
  unfold after.
  rewrite (cycleEdgeFuncs_run L P B 0 f g Hh ltac:(lia) ltac:(change (Z.rem 0 3) with 0; lia));
    fold hwnd; rewrite ?Eg0; try assumption.
  rewrite Hres. cbn [fst snd edgeFuncTurn]. rewrite handedBack_turns.
  rewrite (bump_five B 0 _ (proj1 Hshape) HB EB).
  change (add64 0 1) with 1.
  assert (Hc : B = 0 \/ B = 1 \/ B = 2 \/ B = 3 \/ B = 4) by lia.
  assert (Hd : A = 0 \/ A = 1 \/ A = 2 \/ A = 3 \/ A = 4) by lia.
  destruct Hc as [-> | [-> | [-> | [-> | ->]]]];
    destruct Hd as [-> | [-> | [-> | [-> | ->]]]];
    try contradiction; split; reflexivity.
Qed.

Lemma at_most_one_nonzero_turn_witness :
  let g := {| lastResized := Sample.W1; edgeFuncTurn := [1; 0; 0; 0; 0] |} in
  let P := Sample.desktop Sample.W1 11 Sample.leftHalfRect true true in
  reachable Sample.layouts g /\
  (nonzeroTurns (edgeFuncTurn g) <= 1)%nat /\
  edgeFuncTurn (after (cycleEdgeFuncs Sample.layouts P 1) g) !! 0%nat = Some 0 /\
  edgeFuncTurn (after (cycleEdgeFuncs Sample.layouts P 1) g) !! 1%nat = Some 1.
Proof.
  intros g P.
  assert (Hreach : reachable Sample.layouts g).
  { apply (reachable_fires Sample.layouts (startup Sample.layouts) g
             (reachable_startup Sample.layouts)).
    apply (fires_hotkey Sample.layouts (startup Sample.layouts) g
             (Sample.desktop Sample.W1 11 Sample.windowRect true true)
             {| id := 1;
                callback := cycleEdgeFuncs Sample.layouts
                              (Sample.desktop Sample.W1 11 Sample.windowRect true true) 0 |}
             (Ok tt)
             (trace (cycleEdgeFuncs Sample.layouts
                       (Sample.desktop Sample.W1 11 Sample.windowRect true true) 0)
                (startup Sample.layouts))).
    - left. reflexivity.
    - vm_compute. reflexivity. }
  destruct (at_most_one_nonzero_turn Sample.layouts g Hreach) as [Hcount Hreset].
  split; [exact Hreach | split; [exact Hcount |]].
  apply (Hreset P 0 1 (rightHalf Sample.layouts) true).
  - discriminate.
  - reflexivity.
  - lia.
  - lia.
  - discriminate.
  - reflexivity.
  - reflexivity.
  - vm_compute. reflexivity.
Defined.

(** ** Presses that do not move the window *)

(** C1 as stated fails: a press whose placement declines without error
    still advances the turn index.  First the window already occupies the
    left half (the target equals the outer rectangle), then the window is
    not zonable; both times [resize] returns [(false, nil)] and the index of
    action 0 goes from 0 to 1. *)
Lemma declined_press_advances_turn :
  let g := {| lastResized := Sample.W1; edgeFuncTurn := [0; 0; 0; 0; 0] |} in
  let same := Sample.desktop Sample.W1 11 Sample.leftHalfRect true true in
  let fixed := Sample.desktop Sample.W1 11 Sample.windowRect false true in
  (outcome (resize same Sample.W1 (leftHalf Sample.layouts)) g = Ok (false, None) /\
   trace (cycleEdgeFuncs Sample.layouts same 0) g
   = [Printf "> window: 0x%x %#v (w:%d,h:%d) mon=0x%X(@ display DPI:%d)\n";
      Printf "> DWM frame:        %#v (W:%d,H:%d) @ window DPI=%v\n";
      Printf "> DPI-less frame:   %#v (W:%d,H:%d)\n";
      Println "no resize"] /\
   edgeFuncTurn (after (cycleEdgeFuncs Sample.layouts same 0) g) = [1; 0; 0; 0; 0]) /\
  (outcome (resize fixed Sample.W1 (leftHalf Sample.layouts)) g = Ok (false, None) /\
   trace (cycleEdgeFuncs Sample.layouts fixed 0) g
   = [Printf "warn: non-zonable window: %s\n"] /\
   edgeFuncTurn (after (cycleEdgeFuncs Sample.layouts fixed 0) g) = [1; 0; 0; 0; 0]).
Proof. vm_compute. repeat split. Qed.

(** C1, amended.  On a press of action [i] whose placement returns, the turn
    index is left as it was (after the reset of lines 63-65) exactly when
    the placement returns an error; when it returns no error, whether it
    moved the window or declined to, the index of [i] is one more and the
    other four are zero. *)
Theorem turn_kept_only_on_error (L : Layouts) (P : Platform) (i t : Z)
    (f : resizeFunc) (g : globals) (moved : bool) (err : option error) :
  let hwnd := GetForegroundWindow P in
  let g0 := resetFor L hwnd g in
  hwnd <> 0 ->
  0 <= i < 5 ->
  length (edgeFuncTurn g) = 5%nat ->
  edgeFuncTurn g0 !! Z.to_nat i = Some t ->
  0 <= t < 2 ^ 63 - 1 ->
  variant L i t = Some f ->
  outcome (resize P hwnd f) g0 = Ok (moved, err) ->
  outcome (cycleEdgeFuncs L P i) g = Ok tt /\
  edgeFuncTurn (after (cycleEdgeFuncs L P i) g)
  = match err with
    | Some _ => edgeFuncTurn g0
    | None => <[Z.to_nat i := t + 1]> (make 5)
    end.
Proof.
  intros hwnd g0 Hh Hi Hlen Et Ht Ef Hres.
  assert (Hrem : 0 <= Z.rem t 3) by (apply Z.rem_nonneg; lia).
  assert (Hlen0 : length (edgeFuncTurn g0) = 5%nat).
  { subst g0. rewrite resetFor_turns. now destruct (lastResized g =? hwnd). }
  unfold outcome at 1, after.
  rewrite (cycleEdgeFuncs_run L P i t f g Hh ltac:(lia) Hrem Et Ef).
  fold hwnd. fold g0. rewrite Hres.
  destruct err as [e |]; cbn [fst snd edgeFuncTurn]; rewrite handedBack_turns.
  - split; reflexivity.
  - split; [reflexivity |].
    rewrite (bump_five i t _ Hlen0 Hi Et).
    unfold add64. rewrite wrap64_small; [reflexivity |].
    unfold in_int64. lia.
Qed.

Lemma turn_kept_only_on_error_witness :
  let g := {| lastResized := Sample.W1; edgeFuncTurn := [1; 0; 0; 0; 0] |} in
  let failing := Sample.desktop Sample.W1 11 Sample.windowRect true false in
  outcome (resize failing Sample.W1 (leftTwoThirds Sample.layouts)) g
  = Ok (false, Some (Errorf "failed to GetMonitorInfo:%d" 0)) /\
  outcome (cycleEdgeFuncs Sample.layouts failing 0) g = Ok tt /\
  edgeFuncTurn (after (cycleEdgeFuncs Sample.layouts failing 0) g) = [1; 0; 0; 0; 0].
Proof.
  intros g failing.
  assert (Hres : outcome (resize failing (GetForegroundWindow failing)
                            (leftTwoThirds Sample.layouts))
                   (resetFor Sample.layouts (GetForegroundWindow failing) g)
                 = Ok (false, Some (Errorf "failed to GetMonitorInfo:%d" 0)))
    by (vm_compute; reflexivity).
  split; [exact Hres |].
  apply (turn_kept_only_on_error Sample.layouts failing 0 1
           (leftTwoThirds Sample.layouts) g false
           (Some (Errorf "failed to GetMonitorInfo:%d" 0))).
  - discriminate.
  - lia.
  - reflexivity.
  - reflexivity.
  - change (2 ^ 63) with 9223372036854775808. lia.
  - reflexivity.
  - exact Hres.
Defined.

(** ** The last-resized window *)

Section Recording.

Variable P : Platform.

(** A placement that declines with [(false, nil)] after the zonable check
    is the no-op of lines 276-279, which comes after the recording. *)
Lemma placeOn_noop_recorded hwnd rect dpi mon f (g : globals) :
  outcome (placeOn P hwnd rect dpi mon f) g = Ok (false, None) ->
  reachesRecording P hwnd rect mon = true.
Proof.
  unfold outcome, reachesRecording, placeOn, place, moveWindow.
  destruct (ReleaseDC P hwnd); cbn [negb andb]; [| discriminate].
  destruct (GetMonitorInfo P mon) as [rcWork |]; cbn [is_nil negb andb];
    [| discriminate].
  destruct (DwmGetWindowAttributeEXTENDED_FRAME_BOUNDS P hwnd) as [ok frame].
  destruct ok; cbn [negb andb fst]; [| discriminate].
  unfold bind, lift, emit, ret, set_lastResized.
  destruct (Z.eqb_spec (wrap32 (GetDpiForWindow P hwnd)) 0) as [E | E]; cbn [negb andb].
  { rewrite E, resizeForDpi_zero. discriminate. }
  destruct rect as [r |]; cbn [is_nil negb]; [reflexivity |].
  destruct (resizeForDpi_defined frame _ (wrap32 dpi) E) as [a ->].
  discriminate.
Qed.

Lemma resize_after hwnd f (g : globals) :
  after (resize P hwnd f) g = handedBack P hwnd g.
Proof. unfold after. now rewrite (resize_run P hwnd f g g). Qed.

End Recording.

(** C6 as stated fails: with window 7 recorded, a placement of window 8
    that finds it not zonable, and one whose [GetMonitorInfo] query fails,
    both leave window 7 recorded. *)
Lemma declined_placement_not_recorded :
  let g := {| lastResized := Sample.W1; edgeFuncTurn := [1; 0; 0; 0; 0] |} in
  let fixed := Sample.desktop Sample.W2 11 Sample.windowRect false true in
  let failing := Sample.desktop Sample.W2 11 Sample.windowRect true false in
  (outcome (resize fixed Sample.W2 (leftHalf Sample.layouts)) g = Ok (false, None) /\
   lastResized (after (resize fixed Sample.W2 (leftHalf Sample.layouts)) g) = Sample.W1) /\
  (outcome (resize failing Sample.W2 (leftHalf Sample.layouts)) g
   = Ok (false, Some (Errorf "failed to GetMonitorInfo:%d" 0)) /\
   lastResized (after (resize failing Sample.W2 (leftHalf Sample.layouts)) g) = Sample.W1) /\
  Sample.W1 <> Sample.W2.
Proof. vm_compute. repeat split. discriminate. Qed.

(** C6, amended.  A placement records its window as the last-resized one
    when it gets past the zonable check and the three platform queries, and
    then whatever follows: a move, a failed move request, or the no-op of an
    unchanged rectangle.  When the window is not zonable or one of the
    queries fails, the recorded window stays the one it was. *)
Theorem resize_records_past_queries (P : Platform) (hwnd : HWND)
    (f : resizeFunc) (g : globals) :
  (recorded P hwnd = true ->
   lastResized (after (resize P hwnd f) g) = hwnd) /\
  (isZonableWindow P hwnd = true ->
   outcome (resize P hwnd f) g = Ok (false, None) ->
   lastResized (after (resize P hwnd f) g) = hwnd) /\
  (isZonableWindow P hwnd = false \/
   ReleaseDC P hwnd = false \/
   GetMonitorInfo P (MonitorFromWindow P hwnd) = None \/
   fst (DwmGetWindowAttributeEXTENDED_FRAME_BOUNDS P hwnd) = false ->
   after (resize P hwnd f) g = g).
Proof.
  rewrite resize_after. unfold handedBack.
  split; [| split].
  - now intros ->.
  - intros Hz Hnoop.
    replace (recorded P hwnd) with true; [reflexivity |].
    symmetry. unfold recorded. rewrite Hz. cbn [andb].
    unfold outcome, resize in Hnoop. rewrite Hz in Hnoop. cbn [negb] in Hnoop.
    exact (placeOn_noop_recorded P _ _ _ _ _ g Hnoop).
  - intros H.
    replace (recorded P hwnd) with false; [reflexivity |].
    symmetry. unfold recorded, reachesRecording.
    destruct H as [-> | [-> | [-> | ->]]]; cbn [is_nil negb andb];
      rewrite ?andb_false_r; reflexivity.
Qed.

Lemma resize_records_past_queries_witness :
  let P := Sample.desktop Sample.W2 11 Sample.leftHalfRect true true in
  let g := {| lastResized := Sample.W1; edgeFuncTurn := [1; 0; 0; 0; 0] |} in
  outcome (resize P Sample.W2 (leftHalf Sample.layouts)) g = Ok (false, None) /\
  lastResized (after (resize P Sample.W2 (leftHalf Sample.layouts)) g) = Sample.W2.
Proof.
  intros P g.
  assert (Hnoop : outcome (resize P Sample.W2 (leftHalf Sample.layouts)) g
                  = Ok (false, None)) by (vm_compute; reflexivity).
  split; [exact Hnoop |].
  exact (proj1 (proj2 (resize_records_past_queries P Sample.W2
                         (leftHalf Sample.layouts) g)) eq_refl Hnoop).
Defined.

(** ** A press against another window *)

(** C5 as stated fails in its second half: with window 7 recorded and action
    0 at index 1, a press against the non-zonable window 8 leaves window 7
    recorded; the press that follows against window 7 is then taken for the
    same window and applies variant 1 (two thirds), not variant 0. *)
Lemma other_window_not_always_recorded :
  let g1 := {| lastResized := Sample.W1; edgeFuncTurn := [1; 0; 0; 0; 0] |} in
  let fixed := Sample.desktop Sample.W2 11 Sample.windowRect false true in
  let back := Sample.desktop Sample.W1 11 Sample.leftHalfRect true true in
  let g2 := after (cycleEdgeFuncs Sample.layouts fixed 0) g1 in
  lastResized g2 = Sample.W1 /\
  Sample.W1 <> GetForegroundWindow fixed /\
  edgeFuncTurn g2 = [1; 0; 0; 0; 0] /\
  In (Call_SetWindowPos Sample.W1 0 0 1280 1080)
     (trace (cycleEdgeFuncs Sample.layouts back 0) g2).
Proof.
  vm_compute. split; [reflexivity | split; [discriminate | split; [reflexivity |]]].
  tauto.
Qed.

(** C5, amended.  When a press of action [i] fires against a window other
    than the recorded one, every turn index is reset to 0 before the variant
    is selected, so the placement performed is that of the first variant of
    the row; afterwards the indices are all zero, except that of [i], at 1,
    when the placement returned no error.  The window becomes the recorded
    one when the placement gets past the zonable check and the platform
    queries; otherwise the recorded window stays the one it was. *)
Theorem other_window_restarts_cycle (L : Layouts) (P : Platform) (i : Z) (g : globals) :
  let hwnd := GetForegroundWindow P in
  let g0 := {| lastResized := lastResized g; edgeFuncTurn := make 5 |} in
  hwnd <> 0 ->
  lastResized g <> hwnd ->
  0 <= i < 5 ->
  exists (f : resizeFunc) (row : list resizeFunc),
    edgeFuncs L !! Z.to_nat i = Some (f :: row) /\
    outcome (cycleEdgeFuncs L P i) g
    = match outcome (resize P hwnd f) g0 with
      | Ok _ => Ok tt
      | Panic msg => Panic msg
      end /\
    trace (cycleEdgeFuncs L P i) g
    = match outcome (resize P hwnd f) g0 with
      | Ok (_, Some err) =>
          trace (resize P hwnd f) g0 ++ [Printf_err "warn: resize: %v\n" err]
      | _ => trace (resize P hwnd f) g0
      end /\
    edgeFuncTurn (after (cycleEdgeFuncs L P i) g)
    = match outcome (resize P hwnd f) g0 with
      | Ok (_, None) => <[Z.to_nat i := 1]> (make 5)
      | _ => make 5
      end /\
    lastResized (after (cycleEdgeFuncs L P i) g)
    = if recorded P hwnd then hwnd else lastResized g.
Proof.
  intros hwnd g0 Hh Hother Hi.
  assert (Eg0 : resetFor L hwnd g = g0).
  { unfold resetFor. now replace (lastResized g =? hwnd) with false
      by (symmetry; now apply Z.eqb_neq). }
  assert (Hrow : exists f row, edgeFuncs L !! Z.to_nat i = Some (f :: row)).
  { assert (Hc : i = 0 \/ i = 1 \/ i = 2 \/ i = 3 \/ i = 4) by lia.
    destruct Hc as [-> | [-> | [-> | [-> | ->]]]]; simpl; eauto. }
  destruct Hrow as (f & row & Erow).
  exists f, row. split; [exact Erow |].
  assert (Et : edgeFuncTurn (resetFor L hwnd g) !! Z.to_nat i = Some 0).
  { rewrite Eg0. cbn [edgeFuncTurn].
    assert (Hc : i = 0 \/ i = 1 \/ i = 2 \/ i = 3 \/ i = 4) by lia.
    destruct Hc as [-> | [-> | [-> | [-> | ->]]]]; reflexivity. }
  assert (Ef : variant L i 0 = Some f).
  { unfold variant. rewrite Erow. reflexivity. }
  assert (Hrem : 0 <= Z.rem 0 3) by (change (Z.rem 0 3) with 0; lia).
  unfold outcome at 1, trace at 1, after.
  rewrite (cycleEdgeFuncs_run L P i 0 f g Hh ltac:(lia) Hrem Et Ef).
  fold hwnd. rewrite Eg0.
  pose proof (bump_five i 0 (make 5) eq_refl Hi) as Hbump.
  rewrite Eg0 in Et. cbn [edgeFuncTurn] in Et. specialize (Hbump Et).
  change (add64 0 1) with 1 in Hbump.
  subst g0.
  destruct (outcome (resize P hwnd f) _) as [[moved [err |]] | msg];
    cbn [fst snd edgeFuncTurn lastResized];
    rewrite ?handedBack_turns, ?handedBack_lastResized; cbn [edgeFuncTurn lastResized];
    rewrite ?Hbump; repeat split; reflexivity.
Qed.

Lemma other_window_restarts_cycle_witness :
  let g := {| lastResized := Sample.W1; edgeFuncTurn := [0; 2; 0; 0; 0] |} in
  let P := Sample.desktop Sample.W2 11 Sample.windowRect true true in
  edgeFuncTurn (after (cycleEdgeFuncs Sample.layouts P 0) g) = [1; 0; 0; 0; 0] /\
  lastResized (after (cycleEdgeFuncs Sample.layouts P 0) g) = Sample.W2 /\
  In (Call_SetWindowPos Sample.W2 0 0 960 1080)
     (trace (cycleEdgeFuncs Sample.layouts P 0) g).
Proof.
  intros g P.
  destruct (other_window_restarts_cycle Sample.layouts P 0 g)
    as (f & row & Erow & _ & Etrace & Eturns & Elast).
  - discriminate.
  - discriminate.
  - lia.
  - injection Erow as <- <-.
    split; [exact Eturns | split; [exact Elast |]].
    rewrite Etrace. vm_compute. tauto.
Defined.

(** ** Returning to the dispatcher *)

Section Returning.

Variable P : Platform.

(** The enumeration leaves an index within the list it has built. *)
Lemma enumerate_bounds (mon : HMONITOR) (l acc : list HMONITOR) (monitorIndex : Z) :
  0 <= monitorIndex ->
  monitorIndex < Z.of_nat (length acc) \/ monitorIndex = 0 ->
  Z.of_nat (length acc + length l) < 2 ^ 63 ->
  exists k,
    fold_left (enumCallback mon) l (acc, monitorIndex, Z.of_nat (length acc))
    = (acc ++ l, k, Z.of_nat (length acc + length l)) /\
    0 <= k /\ (k < Z.of_nat (length acc + length l) \/ k = 0).
Proof.
  change (2 ^ 63) with 9223372036854775808.
  revert acc monitorIndex. induction l as [| d l IH]; intros acc monitorIndex H0 Hk Hlen.
  - exists monitorIndex. simpl. rewrite app_nil_r, Nat.add_0_r.
    split; [reflexivity | split; [exact H0 | exact Hk]].
  - simpl in Hlen. cbn [fold_left]. unfold enumCallback at 2.
    unfold add64. rewrite wrap64_small
      by (unfold in_int64; change (2 ^ 63) with 9223372036854775808; lia).
    replace (Z.of_nat (length acc) + 1) with (Z.of_nat (length (acc ++ [d])))
      by (rewrite length_app; simpl; lia).
    destruct (IH (acc ++ [d])
                (if d =? mon then Z.of_nat (length acc) else monitorIndex))
      as (k & E & Hk0 & Hk1).
    + destruct (d =? mon); lia.
    + rewrite length_app. simpl. destruct (d =? mon); lia.
    + rewrite length_app. simpl. lia.
    + exists k. rewrite E, <- app_assoc, length_app. simpl.
      replace (length acc + 1 + length l)%nat with (length acc + S (length l))%nat by lia.
      split; [reflexivity | split; [exact Hk0 |]].
      rewrite length_app in Hk1. simpl in Hk1. lia.
Qed.

(** On a non-empty enumeration the selection returns a monitor. *)
Lemma selectMonitor_defined (monitors : list HMONITOR) (mon : HMONITOR) :
  monitors <> [] -> Z.of_nat (length monitors) < 2 ^ 62 ->
  exists target, selectMonitor monitors mon = Ok target.
Proof.
  change (2 ^ 62) with 4611686018427387904. intros Hne Hlen.
  assert (Hpos : (0 < length monitors)%nat)
    by (destruct monitors; [congruence | simpl; lia]).
  destruct (enumerate_bounds mon monitors [] 0) as (k & E & Hk0 & Hk1).
  - lia.
  - now right.
  - simpl. change (2 ^ 63) with 9223372036854775808. lia.
  - cbn [length app Nat.add] in E, Hk1. change (Z.of_nat 0) with 0 in E.
    unfold selectMonitor. rewrite E.
    unfold sub64. rewrite wrap64_small
      by (unfold in_int64; change (2 ^ 63) with 9223372036854775808; lia).
    rewrite modNeg_mod by (change (2 ^ 62) with 4611686018427387904; lia).
    cbn [rbind].
    destruct (index_in_range monitors ((k - 1) mod Z.of_nat (length monitors)))
      as (target & _ & Ei).
    + apply Z.mod_pos_bound. lia.
    + now exists target.
Qed.

(** Without the faults, the common part of a placement returns. *)
Lemma placeOn_returns hwnd rect dpi mon f (g : globals) :
  rect <> None ->
  GetWindowRect_after P hwnd <> None ->
  wrap32 (GetDpiForWindow P hwnd) <> 0 ->
  exists res, outcome (placeOn P hwnd rect dpi mon f) g = Ok res.
Proof.
  intros Hrect Hafter Hdpi.
  unfold outcome, placeOn, place, moveWindow.
  destruct (ReleaseDC P hwnd); cbn [negb]; [| eexists; reflexivity].
  destruct (GetMonitorInfo P mon) as [rcWork |]; [| eexists; reflexivity].
  destruct (DwmGetWindowAttributeEXTENDED_FRAME_BOUNDS P hwnd) as [ok frame].
  destruct ok; cbn [negb]; [| eexists; reflexivity].
  unfold bind, lift, emit, ret, set_lastResized.
  destruct (resizeForDpi_defined frame _ (wrap32 dpi) Hdpi) as [a ->].
  destruct rect as [r |]; [| congruence]. cbn [deref sameRect is_nil rbind].
  destruct (DeepEqual r (adjustOffsets (f rcWork a) (borderExtents a r)));
    [eexists; reflexivity |].
  destruct (ShowWindow P hwnd SW_SHOWNORMAL); cbn [negb]; [| eexists; reflexivity].
  destruct (SetWindowPos P hwnd (adjustOffsets (f rcWork a) (borderExtents a r)));
    cbn [negb]; [| eexists; reflexivity].
  destruct (GetWindowRect_after P hwnd); [eexists; reflexivity | congruence].
Qed.

Lemma resize_returns (f : resizeFunc) (g : globals) :
  faultFree P ->
  exists res, outcome (resize P (GetForegroundWindow P) f) g = Ok res.
Proof.
  intros (Hrect & Hafter & Hdpi & _).
  unfold outcome, resize.
  destruct (isZonableWindow P (GetForegroundWindow P)); cbn [negb];
    [| eexists; reflexivity].
  exact (placeOn_returns _ _ _ _ _ g Hrect Hafter Hdpi).
Qed.

Lemma moveToNextMonitor_returns (g : globals) :
  faultFree P ->
  exists res, outcome (moveToNextMonitor P (GetForegroundWindow P)) g = Ok res.
Proof.
  intros (Hrect & Hafter & Hdpi & Hne & Hlen).
  unfold outcome, moveToNextMonitor.
  destruct (isZonableWindow P (GetForegroundWindow P)); cbn [negb];
    [| eexists; reflexivity].
  destruct (selectMonitor_defined (EnumMonitors P)
              (MonitorFromWindow P (GetForegroundWindow P)) Hne Hlen) as [m Em].
  unfold bind, lift. rewrite Em.
  destruct (placeOn_returns (GetForegroundWindow P)
              (GetWindowRect P (GetForegroundWindow P))
              (GetDeviceCaps_LOGPIXELSY P (GetForegroundWindow P)) m center g
              Hrect Hafter Hdpi) as [res Hres].
  unfold outcome in Hres.
  destruct (placeOn P (GetForegroundWindow P) _ _ m center g) as [[r g'] t].
  cbn [fst] in *. subst r. now exists res.
Qed.

(** The callback of hotkey 52 in terms of the move it performs. *)
Lemma onMoveToMonitor_run (g : globals) :
  GetForegroundWindow P <> 0 ->
  let move := moveToNextMonitor P (GetForegroundWindow P) in
  outcome (onMoveToMonitor P) g
  = match outcome move g with Ok _ => Ok tt | Panic msg => Panic msg end /\
  trace (onMoveToMonitor P) g
  = match outcome move g with
    | Ok (_, Some e) => trace move g ++ [Printf_err "warn: maximize: %v\n" e]
    | _ => trace move g
    end.
Proof.
  intros Hh move. unfold outcome at 1, trace at 1, onMoveToMonitor.
  replace (GetForegroundWindow P =? 0) with false by (symmetry; now apply Z.eqb_neq).
  unfold bind. fold move.
  unfold outcome, trace.
  destruct (move g) as [[[[moved [e |]] | msg] g'] t]; cbn [fst snd emit ret];
    rewrite ?app_nil_r; split; reflexivity.
Qed.

(** The callback of hotkey 50 returns whatever the platform answers. *)
Lemma onMaximize_run (g : globals) :
  let g' := {| lastResized := 0; edgeFuncTurn := edgeFuncTurn g |} in
  outcome (onMaximize P) g = Ok tt /\
  after (onMaximize P) g = g' /\
  forall e, outcome (maximize P) g' = Ok (Some e) ->
            trace (onMaximize P) g
            = trace (maximize P) g' ++ [Printf_err "warn: maximize: %v\n" e].
Proof.
  unfold outcome, after, trace, onMaximize, maximize, bind, set_lastResized, ret, emit.
  destruct (isZonableWindow P (GetForegroundWindow P)); cbn [negb fst snd app].
  - destruct (ShowWindow P (GetForegroundWindow P) SW_MAXIMIZE); cbn [negb fst snd app];
      (split; [reflexivity | split; [reflexivity |]]).
    + discriminate.
    + intros e [= <-]. reflexivity.
  - split; [reflexivity | split; [reflexivity |]].
    intros e [= <-]. reflexivity.
Qed.

End Returning.

Section Dispatch.

Variable L : Layouts.
Variable P : Platform.

Lemma reset_in_range (g : globals) (i : Z) :
  turns_in_range g -> 0 <= i < 5 ->
  exists t, edgeFuncTurn (resetFor L (GetForegroundWindow P) g) !! Z.to_nat i = Some t /\
            0 <= t.
Proof.
  intros [Hlen Hall] Hi. rewrite resetFor_turns.
  destruct (lastResized g =? GetForegroundWindow P).
  - destruct (edgeFuncTurn g !! Z.to_nat i) as [t |] eqn:Et.
    + exists t. split; [reflexivity |].
      rewrite Forall_lookup in Hall. exact (Hall _ _ Et).
    + apply lookup_ge_None in Et. lia.
  - exists 0. split; [| lia].
    assert (Hc : i = 0 \/ i = 1 \/ i = 2 \/ i = 3 \/ i = 4) by lia.
    destruct Hc as [-> | [-> | [-> | [-> | ->]]]]; reflexivity.
Qed.

(** A press returns when the foreground window is not NULL. *)
Lemma cycleEdgeFuncs_returns (g : globals) (i : Z) :
  turns_in_range g -> faultFree P -> 0 <= i < 5 ->
  GetForegroundWindow P <> 0 ->
  outcome (cycleEdgeFuncs L P i) g = Ok tt.
Proof.
  intros Hg HP Hi Hh.
  destruct (reset_in_range g i Hg Hi) as (t & Et & Ht).
  assert (Hrem : 0 <= Z.rem t 3) by (apply Z.rem_nonneg; lia).
  destruct (variant_defined L i t Hi Hrem) as [f Ef].
  unfold outcome at 1.
  rewrite (cycleEdgeFuncs_run L P i t f g Hh ltac:(lia) Hrem Et Ef).
  destruct (resize_returns P f (resetFor L (GetForegroundWindow P) g) HP) as [res ->].
  destruct res as [moved [e |]]; reflexivity.
Qed.

(** An error returned by the placement of a press is its last line of
    output. *)
Lemma cycleEdgeFuncs_logs (g : globals) (i t : Z) (f : resizeFunc)
    (moved : bool) (e : error) :
  let hwnd := GetForegroundWindow P in
  hwnd <> 0 -> 0 <= i -> 0 <= t ->
  edgeFuncTurn (resetFor L hwnd g) !! Z.to_nat i = Some t ->
  variant L i t = Some f ->
  outcome (resize P hwnd f) (resetFor L hwnd g) = Ok (moved, Some e) ->
  last (trace (cycleEdgeFuncs L P i) g) = Some (Printf_err "warn: resize: %v\n" e).
Proof.
  intros hwnd Hh Hi Ht Et Ef Hres.
  assert (Hrem : 0 <= Z.rem t 3) by (apply Z.rem_nonneg; lia).
  unfold trace at 1.
  rewrite (cycleEdgeFuncs_run L P i t f g Hh Hi Hrem Et Ef).
  fold hwnd. rewrite Hres. cbn [snd]. apply last_snoc.
Qed.

End Dispatch.

(** C8 as stated fails: with a NULL foreground window the edge-cycle and the
    move-to-monitor entry points panic. *)
Lemma null_foreground_window_panics :
  let P := Sample.desktop 0 11 Sample.windowRect true true in
  In {| id := 1; callback := cycleEdgeFuncs Sample.layouts P 0 |} (hks Sample.layouts P) /\
  outcome (cycleEdgeFuncs Sample.layouts P 0) (startup Sample.layouts)
  = Panic "foreground window is NULL" /\
  outcome (onMoveToMonitor P) (startup Sample.layouts)
  = Panic "foreground window is NULL".
Proof. simpl. split; [now left | split; reflexivity]. Qed.

(** C8, amended.  Under answers that exclude a run-time fault (no nil
    window rectangle, no zero window DPI, no empty enumeration) and with
    turn indices in range, every hotkey callback invoked with a non-NULL
    foreground window returns to the dispatcher, and an error returned by
    the placement, the move or the maximisation is the last line it logs.
    With a NULL foreground window the maximize callback returns as well,
    while the edge-cycle and move-to-monitor callbacks panic at their
    explicit check, with the globals untouched. *)
Theorem hotkeys_return_unless_null (L : Layouts) (P : Platform) (g : globals)
    (hk : HotKey) :
  let hwnd := GetForegroundWindow P in
  In hk (hks L P) ->
  turns_in_range g ->
  faultFree P ->
  (hwnd <> 0 -> outcome (callback hk) g = Ok tt) /\
  (hwnd = 0 ->
   if id hk =? 50 then outcome (callback hk) g = Ok tt
   else callback hk g = (Panic null_window, g, [])) /\
  (hwnd <> 0 ->
   forall (i t : Z) (f : resizeFunc) (moved : bool) (e : error),
     0 <= i < 5 -> 0 <= t ->
     edgeFuncTurn (resetFor L hwnd g) !! Z.to_nat i = Some t ->
     variant L i t = Some f ->
     outcome (resize P hwnd f) (resetFor L hwnd g) = Ok (moved, Some e) ->
     last (trace (cycleEdgeFuncs L P i) g) = Some (Printf_err "warn: resize: %v\n" e)) /\
  (hwnd <> 0 ->
   forall (moved : bool) (e : error),
     outcome (moveToNextMonitor P hwnd) g = Ok (moved, Some e) ->
     last (trace (onMoveToMonitor P) g) = Some (Printf_err "warn: maximize: %v\n" e)) /\
  (forall e : error,
     outcome (maximize P) {| lastResized := 0; edgeFuncTurn := edgeFuncTurn g |}
     = Ok (Some e) ->
     last (trace (onMaximize P) g) = Some (Printf_err "warn: maximize: %v\n" e)).
Proof.
  intros hwnd Hin Hg HP.
  split; [| split; [| split; [| split]]].
  - intros Hh. simpl in Hin.
    destruct Hin as [<- | [<- | [<- | [<- | [<- | [<- | [<- | []]]]]]]]; cbn [callback].
    + apply cycleEdgeFuncs_returns; [assumption | assumption | lia | assumption].
    + apply cycleEdgeFuncs_returns; [assumption | assumption | lia | assumption].
    + apply cycleEdgeFuncs_returns; [assumption | assumption | lia | assumption].
    + apply cycleEdgeFuncs_returns; [assumption | assumption | lia | assumption].
    + exact (proj1 (onMaximize_run P g)).
    + apply cycleEdgeFuncs_returns; [assumption | assumption | lia | assumption].
    + destruct (onMoveToMonitor_run P g Hh) as [-> _].
      now destruct (moveToNextMonitor_returns P g HP) as [res ->].
  - intros E0. simpl in Hin.
    destruct Hin as [<- | [<- | [<- | [<- | [<- | [<- | [<- | []]]]]]]]; cbn [callback id];
      try (change (_ =? 50) with false; cbv iota; now apply cycleEdgeFuncs_null).
    + exact (proj1 (onMaximize_run P g)).
    + change (52 =? 50) with false. cbv iota.
      unfold onMoveToMonitor. fold hwnd. now rewrite E0.
  - intros Hh i t f moved e Hi Ht Et Ef Hres.
    apply (cycleEdgeFuncs_logs L P g i t f moved e Hh ltac:(lia) Ht Et Ef Hres).
  - intros Hh moved e Hres.
    destruct (onMoveToMonitor_run P g Hh) as [_ ->]. fold hwnd. rewrite Hres.
    apply last_snoc.
  - intros e Hres.
    destruct (onMaximize_run P g) as (_ & _ & Ht).
    rewrite (Ht e Hres). apply last_snoc.
Qed.

Lemma hotkeys_return_unless_null_witness :
  let P := Sample.desktop Sample.W1 11 Sample.windowRect true false in
  let g := startup Sample.layouts in
  let hk := {| id := 1; callback := cycleEdgeFuncs Sample.layouts P 0 |} in
  In hk (hks Sample.layouts P) /\ turns_in_range g /\ faultFree P /\
  outcome (callback hk) g = Ok tt /\
  last (trace (cycleEdgeFuncs Sample.layouts P 0) g)
  = Some (Printf_err "warn: resize: %v\n" (Errorf "failed to GetMonitorInfo:%d" 0)).
Proof.
  intros P g hk.
  assert (Hin : In hk (hks Sample.layouts P)) by (left; reflexivity).
  assert (Hg : turns_in_range g).
  { split; [reflexivity |]. repeat constructor; lia. }
  assert (HP : faultFree P).
  { unfold faultFree. simpl. repeat split; discriminate. }
  destruct (hotkeys_return_unless_null Sample.layouts P g hk Hin Hg HP)
    as (Hret & _ & Hlog & _).
  split; [exact Hin | split; [exact Hg | split; [exact HP | split]]].
  - apply Hret. discriminate.
  - apply (Hlog ltac:(discriminate) 0 0 (leftHalf Sample.layouts) false
             (Errorf "failed to GetMonitorInfo:%d" 0)).
    + lia.
    + lia.
    + reflexivity.
    + reflexivity.
    + vm_compute. reflexivity.
Defined.

(** * Further properties of the placement engine *)

(** ** Arithmetic modulo 2^32 *)

Section Wrapping.

Lemma wrap32_idem a : wrap32 (wrap32 a) = wrap32 a.
Proof. apply wrap32_small, wrap32_range. Qed.

Lemma wrap32_add_wrap32_r a b : wrap32 (a + wrap32 b) = wrap32 (a + b).
Proof. rewrite Z.add_comm, wrap32_add_wrap32_l. f_equal; lia. Qed.

Lemma wrap32_sub_wrap32_l a b : wrap32 (wrap32 a - b) = wrap32 (a - b).
Proof.
  replace (wrap32 a - b) with (wrap32 a + - b) by lia.
  rewrite wrap32_add_wrap32_l. f_equal; lia.
Qed.

Lemma wrap32_opp_wrap32 a : wrap32 (- wrap32 a) = wrap32 (- a).
Proof.
  unfold wrap32, wrap.
  change (2 ^ (32 - 1)) with 2147483648.
  change (2 ^ 32) with 4294967296.
  Z.to_euclidean_division_equations. lia.
Qed.

Lemma wrap32_sub_wrap32_r a b : wrap32 (a - wrap32 b) = wrap32 (a - b).
Proof.
  replace (a - wrap32 b) with (- wrap32 b + a) by lia.
  rewrite <- wrap32_add_wrap32_l, wrap32_opp_wrap32, wrap32_add_wrap32_l.
  f_equal; lia.
Qed.

End Wrapping.

(** ** Centring and DPI scaling *)

Lemma center_Width (disp cur : RECT) : Width (center disp cur) = Width cur.
Proof.
  unfold center, Width at 1. cbn [Left Right].
  unfold sub32, add32. rewrite wrap32_sub_wrap32_l.
  replace (wrap32 (Left disp + wrap32 (Z.quot (wrap32 (Width disp - Width cur)) 2))
           + Width cur
           - wrap32 (Left disp + wrap32 (Z.quot (wrap32 (Width disp - Width cur)) 2)))
    with (Width cur) by lia.
  apply wrap32_idem.
Qed.

Lemma center_Height (disp cur : RECT) : Height (center disp cur) = Height cur.
Proof.
  unfold center, Height at 1. cbn [Top Bottom].
  unfold sub32, add32. rewrite wrap32_sub_wrap32_l.
  replace (wrap32 (Top disp + wrap32 (Z.quot (wrap32 (Height disp - Height cur)) 2))
           + Height cur
           - wrap32 (Top disp + wrap32 (Z.quot (wrap32 (Height disp - Height cur)) 2)))
    with (Height cur) by lia.
  apply wrap32_idem.
Qed.


(** X1.  [center] hands back a rectangle of exactly the width and height of
    [cur], whatever the two rectangles are (wrap-around included); centring
    its own result again therefore changes nothing. *)
Theorem center_keeps_size (disp cur : RECT) :
  Width (center disp cur) = Width cur /\
  Height (center disp cur) = Height cur /\
  center disp (center disp cur) = center disp cur.
Proof.
  split; [apply center_Width | split; [apply center_Height |]].
  unfold center at 1. rewrite center_Width, center_Height. reflexivity.
Qed.

(** X2.  For rectangles of screen size, when [cur] is no wider and no taller
    than [disp], the centred rectangle lies inside [disp], and the margins
    it leaves on opposite sides differ by at most one pixel, the odd pixel
    going to the right and to the bottom. *)
Theorem center_lies_inside (disp cur : RECT) :
  screen_rect disp -> screen_rect cur ->
  Right cur - Left cur <= Right disp - Left disp ->
  Bottom cur - Top cur <= Bottom disp - Top disp ->
  let c := center disp cur in
  Left disp <= Left c /\ Right c <= Right disp /\
  Top disp <= Top c /\ Bottom c <= Bottom disp /\
  0 <= (Right disp - Right c) - (Left c - Left disp) <= 1 /\
  0 <= (Bottom disp - Bottom c) - (Top c - Top disp) <= 1.
Proof.
  unfold screen_rect. change (2 ^ 29) with 536870912.
  intros (Hd1 & Hd2 & Hd3 & Hd4 & Hd5 & Hd6) (Hc1 & Hc2 & Hc3 & Hc4 & Hc5 & Hc6) Hw Hh.
  assert (small : forall z, -2147483648 <= z < 2147483648 -> wrap32 z = z).
  { intros z Hz. apply wrap32_small. unfold in_int32.
    change (2 ^ 31) with 2147483648. lia. }
  unfold center, Width, Height, sub32, add32. cbn [Left Top Right Bottom].
  rewrite (small (Right disp - Left disp)) by lia.
  rewrite (small (Right cur - Left cur)) by lia.
  rewrite (small (Bottom disp - Top disp)) by lia.
  rewrite (small (Bottom cur - Top cur)) by lia.
  rewrite (small (Right disp - Left disp - (Right cur - Left cur))) by lia.
  rewrite (small (Bottom disp - Top disp - (Bottom cur - Top cur))) by lia.
  set (w := Z.quot (Right disp - Left disp - (Right cur - Left cur)) 2).
  set (h := Z.quot (Bottom disp - Top disp - (Bottom cur - Top cur)) 2).
  assert (Hwq : 0 <= w /\ 0 <= Right disp - Left disp - (Right cur - Left cur) - 2 * w <= 1)
    by (subst w; Z.to_euclidean_division_equations; lia).
  assert (Hhq : 0 <= h /\ 0 <= Bottom disp - Top disp - (Bottom cur - Top cur) - 2 * h <= 1)
    by (subst h; Z.to_euclidean_division_equations; lia).
  rewrite (small w), (small h) by lia.
  rewrite (small (Left disp + w)), (small (Top disp + h)) by lia.
  rewrite (small (Left disp + w + (Right cur - Left cur))) by lia.
  rewrite (small (Top disp + h + (Bottom cur - Top cur))) by lia.
  lia.
Qed.

Lemma center_lies_inside_witness :
  let c := center Sample.workArea Sample.windowRect in
  screen_rect Sample.workArea /\ screen_rect Sample.windowRect /\
  c = {| Left := 560; Top := 240; Right := 1360; Bottom := 840 |} /\
  Left Sample.workArea <= Left c /\ Right c <= Right Sample.workArea.
Proof.
  assert (Hd : screen_rect Sample.workArea)
    by (unfold screen_rect; change (2 ^ 29) with 536870912; simpl; lia).
  assert (Hc : screen_rect Sample.windowRect)
    by (unfold screen_rect; change (2 ^ 29) with 536870912; simpl; lia).
  destruct (center_lies_inside Sample.workArea Sample.windowRect Hd Hc
              ltac:(simpl; lia) ltac:(simpl; lia)) as (H1 & H2 & _).
  split; [exact Hd | split; [exact Hc | split; [reflexivity | split; [exact H1 | exact H2]]]].
Defined.

(** One coordinate scaled by [d / d]. *)
Lemma div32_mul32_same (x d : Z) :
  d <> 0 -> in_int32 x -> in_int32 (x * d) -> div32 (mul32 x d) d = Ok x.
Proof.
  intros Hd Hx Hxd. unfold div32, mul32.
  replace (d =? 0) with false by (symmetry; now apply Z.eqb_neq).
  rewrite (wrap32_small (x * d)) by exact Hxd.
  rewrite Z.quot_mul by exact Hd.
  now rewrite wrap32_small.
Qed.

(** X3.  When the window DPI and the display DPI are the same non-zero
    value [d], and no coordinate times [d] leaves [int32], the DPI
    normalisation hands back the rectangle unchanged. *)
Theorem resizeForDpi_same_dpi (r : RECT) (d : Z) :
  d <> 0 -> rect32 r -> scales_by d r ->
  resizeForDpi r d d = Ok r.
Proof.
  intros Hd (Hl & Ht & Hr & Hb) (Sl & St & Sr & Sb).
  unfold resizeForDpi.
  rewrite !div32_mul32_same by assumption. cbn [rbind].
  now destruct r.
Qed.

Lemma resizeForDpi_same_dpi_witness :
  rect32 Sample.windowRect /\ scales_by 96 Sample.windowRect /\
  resizeForDpi Sample.windowRect 96 96 = Ok Sample.windowRect.
Proof.
  assert (H1 : rect32 Sample.windowRect)
    by (unfold rect32, in_int32; simpl; lia).
  assert (H2 : scales_by 96 Sample.windowRect)
    by (unfold scales_by, in_int32; simpl; lia).
  split; [exact H1 | split; [exact H2 |]].
  exact (resizeForDpi_same_dpi Sample.windowRect 96 ltac:(discriminate) H1 H2).
Defined.

(** One coordinate scaled by [to / from] without overflow. *)
Lemma div32_mul32_exact (x from to : Z) :
  0 < from -> in_int32 (x * to) ->
  div32 (mul32 x to) from = Ok (Z.quot (x * to) from).
Proof.
  unfold in_int32. change (2 ^ 31) with 2147483648. intros Hf Hx.
  unfold div32, mul32.
  replace (from =? 0) with false by (symmetry; apply Z.eqb_neq; lia).
  rewrite (wrap32_small (x * to))
    by (unfold in_int32; change (2 ^ 31) with 2147483648; lia).
  f_equal. apply wrap32_small. unfold in_int32. change (2 ^ 31) with 2147483648.
  Z.to_euclidean_division_equations. nia.
Qed.

(** X4.  Scaling from a positive DPI to a non-negative one, without
    overflow, keeps the corners in order: a rectangle with [Left <= Right]
    and [Top <= Bottom] is scaled to one with the same property. *)
Theorem resizeForDpi_keeps_order (r : RECT) (from to : Z) :
  0 < from -> 0 <= to -> scales_by to r ->
  Left r <= Right r -> Top r <= Bottom r ->
  exists r', resizeForDpi r from to = Ok r' /\
             Left r' <= Right r' /\ Top r' <= Bottom r'.
Proof.
  intros Hf Ht (Sl & St & Sr & Sb) Hlr Htb.
  exists {| Left := Z.quot (Left r * to) from; Top := Z.quot (Top r * to) from;
            Right := Z.quot (Right r * to) from; Bottom := Z.quot (Bottom r * to) from |}.
  split.
  - unfold resizeForDpi. rewrite !div32_mul32_exact by assumption. reflexivity.
  - cbn [Left Top Right Bottom]. split; apply Z.quot_le_mono; nia.
Qed.

Lemma resizeForDpi_keeps_order_witness :
  scales_by 144 Sample.windowRect /\
  exists r', resizeForDpi Sample.windowRect 96 144 = Ok r' /\
             Left r' <= Right r' /\ Top r' <= Bottom r'.
Proof.
  assert (H : scales_by 144 Sample.windowRect)
    by (unfold scales_by, in_int32; simpl; lia).
  split; [exact H |].
  exact (resizeForDpi_keeps_order Sample.windowRect 96 144
           ltac:(lia) ltac:(lia) H ltac:(simpl; lia) ltac:(simpl; lia)).
Defined.

(** ** The border correction *)

(** Goals of [int32] arithmetic, by the equations of the divisions. *)
Ltac wrap_arith :=
  unfold sub32, add32, neg32, wrap32, wrap, in_int32 in *;
  change (2 ^ (32 - 1)) with 2147483648 in *;
  change (2 ^ 31) with 2147483648 in *;
  change (2 ^ 32) with 4294967296 in *;
  Z.to_euclidean_division_equations; lia.

Section Border.

(** Corrected by its own extents, the frame is the outer rectangle. *)
Lemma adjust_current_frame (a r : RECT) :
  rect32 r -> adjustOffsets a (borderExtents a r) = r.
Proof.
  intros (Hl & Ht & Hr & Hb).
  unfold adjustOffsets, borderExtents. cbn [lExtra rExtra tExtra bExtra].
  destruct r as [l t r b]. cbn [Left Top Right Bottom] in *.
  f_equal; wrap_arith.
Qed.

End Border.

(** X5.  The rectangle requested keeps the window's invisible border: the
    extents between a layout's target [t] and the corrected rectangle are
    the very extents measured between the frame and the outer rectangle, for
    all rectangles (wrap-around included). *)
Theorem correction_keeps_border (t a r : RECT) :
  borderExtents t (adjustOffsets t (borderExtents a r)) = borderExtents a r.
Proof.
  unfold borderExtents, adjustOffsets. cbn [Left Top Right Bottom lExtra rExtra tExtra bExtra].
  f_equal; wrap_arith.
Qed.

(** ** What a placement asks of the window manager *)

Section Requests.

Variable P : Platform.

(** The run of [resize] once the window is zonable, the three queries have
    succeeded, the frame is normalised and the outer rectangle is there. *)
Lemma resize_computes (hwnd : HWND) (f : resizeFunc) (g : globals)
    (rcWork frame a r : RECT) :
  let newPos := adjustOffsets (f rcWork a) (borderExtents a r) in
  let g' := {| lastResized := hwnd; edgeFuncTurn := edgeFuncTurn g |} in
  isZonableWindow P hwnd = true ->
  queriesAnswered P hwnd (MonitorFromWindow P hwnd) rcWork frame ->
  resizeForDpi frame (wrap32 (GetDpiForWindow P hwnd))
    (wrap32 (GetDeviceCaps_LOGPIXELSY P hwnd)) = Ok a ->
  GetWindowRect P hwnd = Some r ->
  resize P hwnd f g
  = if DeepEqual r newPos then
      (Ok (false, None), g', preamble ++ [Println "no resize"])
    else if negb (ShowWindow P hwnd SW_SHOWNORMAL) then
      (Ok (false, Some (Errorf "failed to normalize window ShowWindow:%d" (GetLastError P))),
       g',
       preamble ++ [Printf "> resizing to: %#v (W:%d,H:%d)\n";
                    Call_ShowWindow hwnd SW_SHOWNORMAL])
    else if negb (SetWindowPos P hwnd newPos) then
      (Ok (false, Some (Errorf "failed to SetWindowPos:%d" (GetLastError P))),
       g',
       preamble ++ [Printf "> resizing to: %#v (W:%d,H:%d)\n";
                    Call_ShowWindow hwnd SW_SHOWNORMAL; requestFor hwnd newPos])
    else
      match GetWindowRect_after P hwnd with
      | Some _ =>
          (Ok (true, None), g',
           preamble ++ [Printf "> resizing to: %#v (W:%d,H:%d)\n";
                        Call_ShowWindow hwnd SW_SHOWNORMAL; requestFor hwnd newPos;
                        Printf "> post-resize: %#v(W:%d,H:%d)\n"])
      | None =>
          (Panic nil_dereference, g',
           preamble ++ [Printf "> resizing to: %#v (W:%d,H:%d)\n";
                        Call_ShowWindow hwnd SW_SHOWNORMAL; requestFor hwnd newPos])
      end.
Proof.
  intros newPos g' Hz (Hrel & Hmon & Hdwm) Hdpi Hrect.
  unfold resize, placeOn, place, moveWindow.
  rewrite Hz, Hrel, Hmon, Hdwm. cbn [negb].
  unfold bind, lift, emit, ret, set_lastResized.
  rewrite Hdpi, Hrect. cbn [deref sameRect is_nil rbind]. fold newPos. fold g'.
  destruct (DeepEqual r newPos); [reflexivity |].
  destruct (ShowWindow P hwnd SW_SHOWNORMAL); cbn [negb]; [| reflexivity].
  destruct (SetWindowPos P hwnd newPos); cbn [negb]; [| reflexivity].
  destruct (GetWindowRect_after P hwnd); reflexivity.
Qed.

(** The calls of a run of the common part, by its outcome. *)
Lemma placeOn_calls hwnd rect dpi mon f (g : globals) :
  match outcome (placeOn P hwnd rect dpi mon f) g with
  | Ok (false, None) =>
      List.filter is_call (trace (placeOn P hwnd rect dpi mon f) g) = []
  | Ok (true, _) =>
      exists newPos r,
        rect = Some r /\
        DeepEqual r newPos = false /\
        ShowWindow P hwnd SW_SHOWNORMAL = true /\
        SetWindowPos P hwnd newPos = true /\
        List.filter is_call (trace (placeOn P hwnd rect dpi mon f) g)
        = [Call_ShowWindow hwnd SW_SHOWNORMAL; requestFor hwnd newPos]
  | _ => True
  end.
Proof.
  unfold outcome, trace, placeOn, place, moveWindow.
  destruct (ReleaseDC P hwnd); cbn [negb]; [| exact I].
  destruct (GetMonitorInfo P mon) as [rcWork |]; [| exact I].
  destruct (DwmGetWindowAttributeEXTENDED_FRAME_BOUNDS P hwnd) as [ok frame].
  destruct ok; cbn [negb]; [| exact I].
  unfold bind, lift, emit, ret, set_lastResized.
  destruct (resizeForDpi frame _ (wrap32 dpi)) as [a | msg]; [| exact I].
  destruct rect as [r |]; cbn [deref sameRect is_nil rbind]; [| exact I].
  destruct (DeepEqual r (adjustOffsets (f rcWork a) (borderExtents a r))) eqn:Esame;
    [reflexivity |].
  destruct (ShowWindow P hwnd SW_SHOWNORMAL) eqn:Eshow; cbn [negb]; [| exact I].
  destruct (SetWindowPos P hwnd (adjustOffsets (f rcWork a) (borderExtents a r))) eqn:Eset;
    cbn [negb]; [| exact I].
  destruct (GetWindowRect_after P hwnd); [| exact I].
  cbn [fst snd].
  exists (adjustOffsets (f rcWork a) (borderExtents a r)), r.
  repeat split; assumption.
Qed.

End Requests.

(** X6.  When the layout hands back the normalised frame itself, [resize]
    finds the corrected target equal to the outer rectangle: it records the
    window, prints "no resize", asks nothing of the window manager and
    returns [(false, nil)]. *)
Theorem layout_of_current_frame_is_noop (P : Platform) (hwnd : HWND)
    (f : resizeFunc) (g : globals) (rcWork frame a r : RECT) :
  isZonableWindow P hwnd = true ->
  queriesAnswered P hwnd (MonitorFromWindow P hwnd) rcWork frame ->
  resizeForDpi frame (wrap32 (GetDpiForWindow P hwnd))
    (wrap32 (GetDeviceCaps_LOGPIXELSY P hwnd)) = Ok a ->
  GetWindowRect P hwnd = Some r ->
  rect32 r ->
  f rcWork a = a ->
  resize P hwnd f g
  = (Ok (false, None),
     {| lastResized := hwnd; edgeFuncTurn := edgeFuncTurn g |},
     preamble ++ [Println "no resize"]).
Proof.
  intros Hz Hq Hdpi Hrect Hr Hf.
  rewrite (resize_computes P hwnd f g rcWork frame a r Hz Hq Hdpi Hrect).
  rewrite Hf, (adjust_current_frame a r Hr).
  replace (DeepEqual r r) with true; [reflexivity |].
  symmetry. unfold DeepEqual. now rewrite !Z.eqb_refl.
Qed.

Lemma layout_of_current_frame_is_noop_witness :
  let P := Sample.desktop Sample.W1 11 Sample.windowRect true true in
  let g := startup Sample.layouts in
  rect32 Sample.windowRect /\
  resize P Sample.W1 (fun _ cur => cur) g
  = (Ok (false, None),
     {| lastResized := Sample.W1; edgeFuncTurn := edgeFuncTurn g |},
     preamble ++ [Println "no resize"]).
Proof.
  intros P g.
  assert (Hr : rect32 Sample.windowRect) by (unfold rect32, in_int32; simpl; lia).
  split; [exact Hr |].
  apply (layout_of_current_frame_is_noop P Sample.W1 (fun _ cur => cur) g
           Sample.workArea Sample.windowRect Sample.windowRect Sample.windowRect).
  - reflexivity.
  - repeat split.
  - vm_compute. reflexivity.
  - reflexivity.
  - exact Hr.
  - reflexivity.
Defined.

(** X7.  A placement by [resize] that declines with [(false, nil)] has asked
    nothing of the window manager; one that reports a move has issued
    exactly two calls, [ShowWindow(SW_SHOWNORMAL)] and then one
    [SetWindowPos], both answered with success, towards a rectangle that
    differs from the outer rectangle it read. *)
Theorem resize_calls_by_outcome (P : Platform) (hwnd : HWND) (f : resizeFunc)
    (g : globals) :
  (outcome (resize P hwnd f) g = Ok (false, None) ->
   List.filter is_call (trace (resize P hwnd f) g) = []) /\
  (forall err, outcome (resize P hwnd f) g = Ok (true, err) ->
   exists newPos r,
     GetWindowRect P hwnd = Some r /\
     DeepEqual r newPos = false /\
     ShowWindow P hwnd SW_SHOWNORMAL = true /\
     SetWindowPos P hwnd newPos = true /\
     List.filter is_call (trace (resize P hwnd f) g)
     = [Call_ShowWindow hwnd SW_SHOWNORMAL; requestFor hwnd newPos]).
Proof.
  unfold outcome, trace, resize.
  destruct (isZonableWindow P hwnd); cbn [negb].
  - pose proof (placeOn_calls P hwnd (GetWindowRect P hwnd)
                  (GetDeviceCaps_LOGPIXELSY P hwnd) (MonitorFromWindow P hwnd) f g) as H.
    unfold outcome, trace in H.
    destruct (placeOn P hwnd (GetWindowRect P hwnd) (GetDeviceCaps_LOGPIXELSY P hwnd)
                (MonitorFromWindow P hwnd) f g) as [[res g'] t].
    cbn [fst snd] in *. split.
    + intros ->. exact H.
    + intros err ->. exact H.
  - split; [reflexivity | discriminate].
Qed.

Lemma resize_calls_by_outcome_witness :
  let P := Sample.desktop Sample.W1 11 Sample.windowRect true true in
  let g := startup Sample.layouts in
  outcome (resize P Sample.W1 (leftHalf Sample.layouts)) g = Ok (true, None) /\
  exists newPos r,
    GetWindowRect P Sample.W1 = Some r /\
    DeepEqual r newPos = false /\
    ShowWindow P Sample.W1 SW_SHOWNORMAL = true /\
    SetWindowPos P Sample.W1 newPos = true /\
    List.filter is_call (trace (resize P Sample.W1 (leftHalf Sample.layouts)) g)
    = [Call_ShowWindow Sample.W1 SW_SHOWNORMAL; requestFor Sample.W1 newPos].
Proof.
  intros P g.
  assert (H : outcome (resize P Sample.W1 (leftHalf Sample.layouts)) g = Ok (true, None))
    by (vm_compute; reflexivity).
  split; [exact H |].
  exact (proj2 (resize_calls_by_outcome P Sample.W1 (leftHalf Sample.layouts) g) None H).
Defined.

(** ** Faults *)

(** X8.  Once the window is zonable and the three queries have succeeded, a
    window DPI that is zero as an [int32] makes [resize] panic on the
    division of [resizeForDpi], and otherwise a nil window rectangle makes
    it panic on its first use; either way nothing has been recorded or
    printed by then. *)
Theorem resize_faults (P : Platform) (hwnd : HWND) (f : resizeFunc) (g : globals)
    (rcWork frame : RECT) :
  isZonableWindow P hwnd = true ->
  queriesAnswered P hwnd (MonitorFromWindow P hwnd) rcWork frame ->
  (wrap32 (GetDpiForWindow P hwnd) = 0 ->
   resize P hwnd f g = (Panic divide_by_zero, g, [])) /\
  (wrap32 (GetDpiForWindow P hwnd) <> 0 ->
   GetWindowRect P hwnd = None ->
   resize P hwnd f g = (Panic nil_dereference, g, [])).
Proof.
  intros Hz (Hrel & Hmon & Hdwm).
  unfold resize, placeOn, place. rewrite Hz, Hrel, Hmon, Hdwm. cbn [negb].
  unfold bind, lift. split.
  - intros ->. rewrite resizeForDpi_zero. reflexivity.
  - intros Hdpi ->.
    destruct (resizeForDpi_defined frame _
                (wrap32 (GetDeviceCaps_LOGPIXELSY P hwnd)) Hdpi) as [a ->].
    reflexivity.
Qed.

Lemma resize_faults_witness :
  let P := {| GetForegroundWindow := Sample.W1;
              isZonableWindow := fun _ => true;
              GetWindowText := fun _ => "window"%string;
              GetWindowRect := fun _ => Some Sample.windowRect;
              GetWindowRect_after := fun _ => Some Sample.windowRect;
              MonitorFromWindow := fun _ => 11;
              GetDeviceCaps_LOGPIXELSY := fun _ => 96;
              ReleaseDC := fun _ => true;
              GetMonitorInfo := fun _ => Some Sample.workArea;
              DwmGetWindowAttributeEXTENDED_FRAME_BOUNDS := fun _ => (true, Sample.windowRect);
              GetDpiForWindow := fun _ => 0;
              EnumMonitors := [11];
              ShowWindow := fun _ _ => true;
              SetWindowPos := fun _ _ => true;
              GetLastError := 0 |} in
  resize P Sample.W1 (leftHalf Sample.layouts) (startup Sample.layouts)
  = (Panic divide_by_zero, startup Sample.layouts, []).
Proof.
  intros P.
  apply (proj1 (resize_faults P Sample.W1 (leftHalf Sample.layouts)
                  (startup Sample.layouts) Sample.workArea Sample.windowRect
                  eq_refl (conj eq_refl (conj eq_refl eq_refl)))).
  reflexivity.
Defined.

(** X9.  On a zonable window, an enumeration that yields no monitor makes
    [moveToNextMonitor] panic on the remainder by zero of [modNeg], before
    any query, record or output. *)
Theorem moveToNextMonitor_without_monitors (P : Platform) (hwnd : HWND) (g : globals) :
  isZonableWindow P hwnd = true ->
  EnumMonitors P = [] ->
  moveToNextMonitor P hwnd g = (Panic divide_by_zero, g, []).
Proof.
  intros Hz He. unfold moveToNextMonitor. rewrite Hz, He. reflexivity.
Qed.

Lemma moveToNextMonitor_without_monitors_witness :
  let P := {| GetForegroundWindow := Sample.W1;
              isZonableWindow := fun _ => true;
              GetWindowText := fun _ => "window"%string;
              GetWindowRect := fun _ => Some Sample.windowRect;
              GetWindowRect_after := fun _ => Some Sample.windowRect;
              MonitorFromWindow := fun _ => 11;
              GetDeviceCaps_LOGPIXELSY := fun _ => 96;
              ReleaseDC := fun _ => true;
              GetMonitorInfo := fun _ => Some Sample.workArea;
              DwmGetWindowAttributeEXTENDED_FRAME_BOUNDS := fun _ => (true, Sample.windowRect);
              GetDpiForWindow := fun _ => 96;
              EnumMonitors := [];
              ShowWindow := fun _ _ => true;
              SetWindowPos := fun _ _ => true;
              GetLastError := 0 |} in
  moveToNextMonitor P Sample.W1 (startup Sample.layouts)
  = (Panic divide_by_zero, startup Sample.layouts, []).
Proof.
  intros P.
  exact (moveToNextMonitor_without_monitors P Sample.W1 (startup Sample.layouts)
           eq_refl eq_refl).
Defined.

(** ** A window without border at the display's DPI *)



(** ** Repeated presses *)

Section Rotation.

Variable L : Layouts.

(** The three variants of every row. *)
Lemma edgeFuncs_three (i : Z) :
  0 <= i < 5 ->
  exists f0 f1 f2, edgeFuncs L !! Z.to_nat i = Some [f0; f1; f2].
Proof.
  intros Hi.
  assert (Hc : i = 0 \/ i = 1 \/ i = 2 \/ i = 3 \/ i = 4) by lia.
  destruct Hc as [-> | [-> | [-> | [-> | ->]]]]; simpl; eauto.
Qed.

(** A press against the recorded window, by the placement it performs. *)
Lemma press_same_window (P : Platform) (i t : Z) (f : resizeFunc) (g : globals) :
  let hwnd := GetForegroundWindow P in
  hwnd <> 0 -> lastResized g = hwnd ->
  0 <= i -> 0 <= t ->
  edgeFuncTurn g !! Z.to_nat i = Some t ->
  variant L i t = Some f ->
  cycleEdgeFuncs L P i g
  = match outcome (resize P hwnd f) g with
    | Ok (_, Some err) =>
        (Ok tt, handedBack P hwnd g,
         trace (resize P hwnd f) g ++ [Printf_err "warn: resize: %v\n" err])
    | Ok (_, None) =>
        (Ok tt,
         {| lastResized := hwnd; edgeFuncTurn := bump i (edgeFuncTurn g) |},
         trace (resize P hwnd f) g)
    | Panic msg => (Panic msg, handedBack P hwnd g, trace (resize P hwnd f) g)
    end.
Proof.
  intros hwnd Hh Hsame Hi Ht Et Ef.
  assert (Eg0 : resetFor L hwnd g = g).
  { unfold resetFor. now replace (lastResized g =? hwnd) with true
      by (symmetry; now apply Z.eqb_eq). }
  assert (Hrem : 0 <= Z.rem t 3) by (apply Z.rem_nonneg; lia).
  rewrite (cycleEdgeFuncs_run L P i t f g Hh Hi Hrem); fold hwnd; rewrite ?Eg0;
    try assumption.
  destruct (outcome (resize P hwnd f) g) as [[moved [err |]] | msg]; try reflexivity.
  rewrite handedBack_turns, handedBack_lastResized, Hsame.
  now destruct (recorded P hwnd).
Qed.

End Rotation.

(** X11.  A press of action [i] against the recorded window, with the turn
    index at [t >= 0], performs the placement of the variant at position
    [t mod 3] of the row, so that the indices [t] and [t + 3] apply the same
    layout; the press returns or panics as that placement does and logs the
    error the placement returns. *)
Theorem press_applies_variant_mod_3 (L : Layouts) (P : Platform) (i t : Z) (g : globals) :
  let hwnd := GetForegroundWindow P in
  hwnd <> 0 -> lastResized g = hwnd ->
  0 <= i < 5 -> 0 <= t ->
  edgeFuncTurn g !! Z.to_nat i = Some t ->
  exists f0 f1 f2,
    edgeFuncs L !! Z.to_nat i = Some [f0; f1; f2] /\
    let f := if t mod 3 =? 0 then f0 else if t mod 3 =? 1 then f1 else f2 in
    outcome (cycleEdgeFuncs L P i) g
    = match outcome (resize P hwnd f) g with
      | Ok _ => Ok tt
      | Panic msg => Panic msg
      end /\
    trace (cycleEdgeFuncs L P i) g
    = match outcome (resize P hwnd f) g with
      | Ok (_, Some err) => trace (resize P hwnd f) g ++ [Printf_err "warn: resize: %v\n" err]
      | _ => trace (resize P hwnd f) g
      end.
Proof.
  intros hwnd Hh Hsame Hi Ht Et.
  destruct (edgeFuncs_three L i Hi) as (f0 & f1 & f2 & Erow).
  exists f0, f1, f2. split; [exact Erow |].
  set (f := if t mod 3 =? 0 then f0 else if t mod 3 =? 1 then f1 else f2).
  assert (Ef : variant L i t = Some f).
  { unfold variant. rewrite Erow. cbn [length]. change (Z.of_nat 3) with 3.
    rewrite Z.rem_mod_nonneg by lia. subst f.
    pose proof (Z.mod_pos_bound t 3 ltac:(lia)) as Hm.
    assert (Hc : t mod 3 = 0 \/ t mod 3 = 1 \/ t mod 3 = 2) by lia.
    destruct Hc as [-> | [-> | ->]]; reflexivity. }
  unfold outcome at 1, trace at 1.
  rewrite (press_same_window L P i t f g Hh Hsame ltac:(lia) Ht Et Ef). fold hwnd.
  destruct (outcome (resize P hwnd f) g) as [[moved [err |]] | msg]; split; reflexivity.
Qed.

Lemma press_applies_variant_mod_3_witness :
  let P := Sample.desktop Sample.W1 11 Sample.leftHalfRect true true in
  let g := {| lastResized := Sample.W1; edgeFuncTurn := [4; 0; 0; 0; 0] |} in
  trace (cycleEdgeFuncs Sample.layouts P 0) g
  = trace (resize P Sample.W1 (leftTwoThirds Sample.layouts)) g.
Proof.
  intros P g.
  destruct (press_applies_variant_mod_3 Sample.layouts P 0 4 g)
    as (f0 & f1 & f2 & Erow & _ & Etrace).
  - discriminate.
  - reflexivity.
  - lia.
  - lia.
  - reflexivity.
  - injection Erow as <- <- <-. exact Etrace.
Defined.




(** ** Maximize, move to monitor, and the cycle *)

(** A press against a window other than the recorded one. *)
Lemma press_other_window (L : Layouts) (P : Platform) (i : Z) (g : globals) :
  let hwnd := GetForegroundWindow P in
  let g0 := {| lastResized := lastResized g; edgeFuncTurn := make 5 |} in
  hwnd <> 0 -> lastResized g <> hwnd -> 0 <= i < 5 ->
  exists f row,
    edgeFuncs L !! Z.to_nat i = Some (f :: row) /\
    cycleEdgeFuncs L P i g
    = match outcome (resize P hwnd f) g0 with
      | Ok (_, Some err) =>
          (Ok tt, handedBack P hwnd g0,
           trace (resize P hwnd f) g0 ++ [Printf_err "warn: resize: %v\n" err])
      | Ok (_, None) =>
          (Ok tt,
           {| lastResized := lastResized (handedBack P hwnd g0);
              edgeFuncTurn := <[Z.to_nat i := 1]> (make 5) |},
           trace (resize P hwnd f) g0)
      | Panic msg => (Panic msg, handedBack P hwnd g0, trace (resize P hwnd f) g0)
      end.
Proof.
  intros hwnd g0 Hh Hother Hi.
  assert (Eg0 : resetFor L hwnd g = g0).
  { unfold resetFor. now replace (lastResized g =? hwnd) with false
      by (symmetry; now apply Z.eqb_neq). }
  destruct (edgeFuncs_three L i Hi) as (f & f1 & f2 & Erow).
  exists f, [f1; f2]. split; [exact Erow |].
  assert (Et : edgeFuncTurn g0 !! Z.to_nat i = Some 0).
  { subst g0. cbn [edgeFuncTurn].
    assert (Hc : i = 0 \/ i = 1 \/ i = 2 \/ i = 3 \/ i = 4) by lia.
    destruct Hc as [-> | [-> | [-> | [-> | ->]]]]; reflexivity. }
  assert (Ef : variant L i 0 = Some f) by (unfold variant; now rewrite Erow).
  assert (Hrem : 0 <= Z.rem 0 3) by (change (Z.rem 0 3) with 0; lia).
  rewrite (cycleEdgeFuncs_run L P i 0 f g Hh ltac:(lia) Hrem); fold hwnd; rewrite ?Eg0;
    try assumption.
  destruct (outcome (resize P hwnd f) g0) as [[moved [err |]] | msg]; try reflexivity.
  rewrite handedBack_turns.
  rewrite (bump_five i 0 (edgeFuncTurn g0) eq_refl Hi Et).
  reflexivity.
Qed.

(** X13.  The maximize callback always returns, clears the recorded window
    and leaves the turn indices alone; the press of any action that follows,
    against any non-NULL window, is therefore taken for a new window: it
    performs the placement of the first variant of its row and leaves the
    indices all zero, or with its own at 1 when that placement returns no
    error. *)
Theorem maximize_restarts_cycle (L : Layouts) (P P' : Platform) (i : Z) (g : globals) :
  let hwnd := GetForegroundWindow P' in
  let g1 := after (onMaximize P) g in
  let g0 := {| lastResized := 0; edgeFuncTurn := make 5 |} in
  hwnd <> 0 -> 0 <= i < 5 ->
  outcome (onMaximize P) g = Ok tt /\
  g1 = {| lastResized := 0; edgeFuncTurn := edgeFuncTurn g |} /\
  exists f row,
    edgeFuncs L !! Z.to_nat i = Some (f :: row) /\
    trace (cycleEdgeFuncs L P' i) g1
    = match outcome (resize P' hwnd f) g0 with
      | Ok (_, Some err) => trace (resize P' hwnd f) g0 ++ [Printf_err "warn: resize: %v\n" err]
      | _ => trace (resize P' hwnd f) g0
      end /\
    edgeFuncTurn (after (cycleEdgeFuncs L P' i) g1)
    = match outcome (resize P' hwnd f) g0 with
      | Ok (_, None) => <[Z.to_nat i := 1]> (make 5)
      | _ => make 5
      end.
Proof.
  intros hwnd g1 g0 Hh Hi.
  destruct (onMaximize_run P g) as (Hret & Hafter & _).
  split; [exact Hret | split; [exact Hafter |]].
  subst g1. rewrite Hafter.
  destruct (press_other_window L P' i
              {| lastResized := 0; edgeFuncTurn := edgeFuncTurn g |} Hh
              ltac:(cbn [lastResized]; fold hwnd; congruence) Hi)
    as (f & row & Erow & Erun).
  exists f, row. split; [exact Erow |].
  unfold trace at 1, after. rewrite Erun. cbn [lastResized]. fold hwnd. fold g0.
  destruct (outcome (resize P' hwnd f) g0) as [[moved [err |]] | msg];
    cbn [fst snd edgeFuncTurn]; rewrite ?handedBack_turns; split; reflexivity.
Qed.

Lemma maximize_restarts_cycle_witness :
  let P := Sample.desktop Sample.W1 11 Sample.leftHalfRect true true in
  let g := {| lastResized := Sample.W1; edgeFuncTurn := [2; 0; 0; 0; 0] |} in
  edgeFuncTurn (after (cycleEdgeFuncs Sample.layouts P 0) (after (onMaximize P) g))
  = [1; 0; 0; 0; 0].
Proof.
  intros P g.
  destruct (maximize_restarts_cycle Sample.layouts P P 0 g
              ltac:(discriminate) ltac:(lia))
    as (_ & _ & f & row & Erow & _ & Eturns).
  injection Erow as <- <-. exact Eturns.
Defined.

(** X14.  Neither the maximize callback nor the move-to-monitor callback
    ever changes a turn index, whatever the platform answers and however
    they end; the first leaves 0 as the recorded window, the second leaves
    the recorded window as it was or sets it to the foreground window. *)
Theorem other_hotkeys_keep_turns (P : Platform) (g : globals) :
  edgeFuncTurn (after (onMaximize P) g) = edgeFuncTurn g /\
  lastResized (after (onMaximize P) g) = 0 /\
  edgeFuncTurn (after (onMoveToMonitor P) g) = edgeFuncTurn g /\
  (lastResized (after (onMoveToMonitor P) g) = lastResized g \/
   lastResized (after (onMoveToMonitor P) g) = GetForegroundWindow P).
Proof.
  split; [apply onMaximize_turns |].
  split; [now rewrite (proj1 (proj2 (onMaximize_run P g))) |].
  split; [apply onMoveToMonitor_turns |].
  unfold after, onMoveToMonitor.
  destruct (GetForegroundWindow P =? 0); [now left |].
  unfold bind.
  destruct (moveToNextMonitor_run P (GetForegroundWindow P) g g) as [rec ->].
  destruct (outcome (moveToNextMonitor P (GetForegroundWindow P)) g)
    as [[moved [err |]] | msg]; cbn [snd fst emit ret]; destruct rec; auto.
Qed.

(** ** How far the turn indices can go *)

(** The turn indices a press can leave behind, with the value of the one it
    advances. *)
Lemma cycleEdgeFuncs_turns_precise (L : Layouts) (P : Platform) (i : Z) (g : globals) :
  length (edgeFuncTurn g) = 5%nat -> 0 <= i < 5 ->
  let ts := edgeFuncTurn (after (cycleEdgeFuncs L P i) g) in
  ts = edgeFuncTurn g \/ ts = make 5 \/
  exists t, (edgeFuncTurn g !! Z.to_nat i = Some t \/ t = 0) /\
            0 <= Z.rem t 3 /\
            ts = <[Z.to_nat i := add64 t 1]> (make 5).
Proof.
  intros Hlen Hi ts. subst ts.
  destruct (Z.eq_dec (GetForegroundWindow P) 0) as [E0 | Hh].
  { unfold after. rewrite (cycleEdgeFuncs_null L P i g E0). now left. }
  set (hwnd := GetForegroundWindow P) in *.
  set (g0 := resetFor L hwnd g).
  assert (Hg0 : edgeFuncTurn g0 = edgeFuncTurn g \/ edgeFuncTurn g0 = make 5).
  { subst g0. rewrite resetFor_turns. destruct (lastResized g =? hwnd); auto. }
  assert (Hlen0 : length (edgeFuncTurn g0) = 5%nat)
    by (destruct Hg0 as [-> | ->]; [exact Hlen | reflexivity]).
  destruct (edgeFuncTurn g0 !! Z.to_nat i) as [t |] eqn:Et.
  2:{ apply lookup_ge_None in Et. lia. }
  destruct (Z_lt_le_dec (Z.rem t 3) 0) as [Hneg | Hpos].
  { unfold after.
    rewrite (cycleEdgeFuncs_negative L P i t g Hh ltac:(lia) Hneg Et ltac:(lia)).
    cbn [fst snd]. destruct Hg0; auto. }
  destruct (variant_defined L i t Hi Hpos) as [f Ef].
  unfold after.
  rewrite (cycleEdgeFuncs_run L P i t f g Hh ltac:(lia) Hpos Et Ef).
  fold hwnd. fold g0.
  destruct (outcome (resize P hwnd f) g0) as [[moved [err |]] | msg];
    cbn [fst snd edgeFuncTurn]; rewrite ?handedBack_turns.
  - destruct Hg0; auto.
  - right. right. exists t. split; [| split; [exact Hpos |]].
    + destruct Hg0 as [E | E]; rewrite E in Et; [now left | right].
      assert (Hc : i = 0 \/ i = 1 \/ i = 2 \/ i = 3 \/ i = 4) by lia.
      destruct Hc as [-> | [-> | [-> | [-> | ->]]]]; simpl in Et; congruence.
    + apply bump_five; [exact Hlen0 | exact Hi | exact Et].
  - destruct Hg0; auto.
Qed.

(** X15.  After [n] hotkey invocations from startup, with [n] below 2^63,
    there are five turn indices and each lies between 0 and [n]: an index
    grows by at most one per invocation and cannot have wrapped around, so
    the remainder that selects the variant is never negative. *)
Theorem turns_bounded_by_invocations (L : Layouts) (n : nat) (g : globals) :
  reachableIn L n g ->
  Z.of_nat n < 2 ^ 63 ->
  length (edgeFuncTurn g) = 5%nat /\
  Forall (fun t => 0 <= t <= Z.of_nat n) (edgeFuncTurn g).
Proof.
  induction 1 as [| n g g' _ IH Hf]; intros Hn.
  - split; [reflexivity |]. simpl. repeat constructor; lia.
  - destruct (IH ltac:(lia)) as [Hlen Hall].
    assert (Hmono : Forall (fun t => 0 <= t <= Z.of_nat (S n)) (edgeFuncTurn g)).
    { eapply Forall_impl; [exact Hall |]. cbv beta. intros t Ht. lia. }
    assert (Hzero : Forall (fun t => 0 <= t <= Z.of_nat (S n)) (make 5)).
    { simpl. repeat constructor; lia. }
    destruct Hf as [P hk r t Hin Hrun].
    assert (Hafter : g' = after (callback hk) g) by (unfold after; now rewrite Hrun).
    subst g'. clear Hrun r t.
    assert (Hcycle : forall i, 0 <= i < 5 ->
              length (edgeFuncTurn (after (cycleEdgeFuncs L P i) g)) = 5%nat /\
              Forall (fun t => 0 <= t <= Z.of_nat (S n))
                (edgeFuncTurn (after (cycleEdgeFuncs L P i) g))).
    { intros i Hi.
      destruct (cycleEdgeFuncs_turns_precise L P i g Hlen Hi)
        as [-> | [-> | (t & Ht & _ & ->)]].
      - split; assumption.
      - split; [reflexivity | exact Hzero].
      - split; [now rewrite length_insert |].
        apply Forall_insert; [exact Hzero |].
        assert (Hb : 0 <= t <= Z.of_nat n).
        { destruct Ht as [Et | ->]; [| lia].
          rewrite Forall_lookup in Hall. exact (Hall _ _ Et). }
        unfold add64. rewrite wrap64_small; [lia |].
        unfold in_int64. lia. }
    simpl in Hin.
    destruct Hin as [<- | [<- | [<- | [<- | [<- | [<- | [<- | []]]]]]]]; cbn [callback].
    + apply Hcycle. lia.
    + apply Hcycle. lia.
    + apply Hcycle. lia.
    + apply Hcycle. lia.
    + rewrite onMaximize_turns. split; assumption.
    + apply Hcycle. lia.
    + rewrite onMoveToMonitor_turns. split; assumption.
Qed.

Lemma turns_bounded_by_invocations_witness :
  let g := {| lastResized := Sample.W1; edgeFuncTurn := [1; 0; 0; 0; 0] |} in
  reachableIn Sample.layouts 1 g /\
  Forall (fun t => 0 <= t <= 1) (edgeFuncTurn g).
Proof.
  intros g.
  assert (Hreach : reachableIn Sample.layouts 1 g).
  { apply (reachableIn_fires Sample.layouts 0 (startup Sample.layouts) g
             (reachableIn_startup Sample.layouts)).
    apply (fires_hotkey Sample.layouts (startup Sample.layouts) g
             (Sample.desktop Sample.W1 11 Sample.windowRect true true)
             {| id := 1;
                callback := cycleEdgeFuncs Sample.layouts
                              (Sample.desktop Sample.W1 11 Sample.windowRect true true) 0 |}
             (Ok tt)
             (trace (cycleEdgeFuncs Sample.layouts
                       (Sample.desktop Sample.W1 11 Sample.windowRect true true) 0)
                (startup Sample.layouts))).
    - left. reflexivity.
    - vm_compute. reflexivity. }
  split; [exact Hreach |].
  exact (proj2 (turns_bounded_by_invocations Sample.layouts 1 g Hreach
                  ltac:(vm_compute; reflexivity))).
Defined.

(** ** Going round the monitors *)

(** X16.  [modNeg v m] is the residue of [v] modulo [m] for every [v] and
    every modulus [0 < m < 2^62]: it lies in [[0, m)] also when [v] is
    negative, where Go's [%] alone would not. *)
Theorem modNeg_is_residue (v m : Z) :
  0 < m < 2 ^ 62 ->
  modNeg v m = Ok (v mod m) /\ 0 <= v mod m < m.
Proof.
  intros Hm. split; [now apply modNeg_mod |].
  apply Z.mod_pos_bound. lia.
Qed.

Lemma modNeg_is_residue_witness :
  modNeg (-7) 3 = Ok 2 /\ Z.rem (-7) 3 = -1.
Proof.
  split; [| reflexivity].
  exact (proj1 (modNeg_is_residue (-7) 3 ltac:(vm_compute; split; reflexivity))).
Defined.

Section Hops.

Variable monitors : list HMONITOR.
Hypothesis distinct : NoDup monitors.
Hypothesis few : Z.of_nat (length monitors) < 2 ^ 62.

Lemma distinct_last (i : nat) (m : HMONITOR) :
  monitors !! i = Some m -> forall j, (i < j)%nat -> monitors !! j <> Some m.
Proof.
  intros Hi j Hj Hm. pose proof (NoDup_lookup _ _ _ _ distinct Hi Hm). lia.
Qed.

(** [k] selections from position [i] lead to position [(i - k) mod N]. *)
Lemma hops_position (k i : nat) (m : HMONITOR) :
  monitors !! i = Some m ->
  hops monitors k m
  = index monitors ((Z.of_nat i - Z.of_nat k) mod Z.of_nat (length monitors)).
Proof.
  revert i m. induction k as [| k IH]; intros i m Hi.
  - pose proof (lookup_lt_Some _ _ _ Hi) as Hlt.
    cbn [hops]. rewrite Z.sub_0_r, Z.mod_small by lia.
    symmetry. apply index_lookup; [lia |]. now rewrite Nat2Z.id.
  - pose proof (lookup_lt_Some _ _ _ Hi) as Hlt.
    cbn [hops].
    rewrite (selectMonitor_present m monitors i few Hi (distinct_last i m Hi)).
    set (j := (Z.of_nat i - 1) mod Z.of_nat (length monitors)).
    assert (Hj : 0 <= j < Z.of_nat (length monitors))
      by (apply Z.mod_pos_bound; lia).
    destruct (index_in_range monitors j Hj) as (m' & Em' & ->).
    cbn [rbind]. rewrite (IH (Z.to_nat j) m' Em').
    f_equal. rewrite Z2Nat.id by lia. subst j.
    rewrite Zminus_mod_idemp_l. f_equal. lia.
Qed.

End Hops.

(** X17.  Over an enumeration of [N] distinct monitors, repeated selection
    goes round all of them: from any monitor of the list, [N] successive
    selections lead back to it, and no smaller positive number does. *)
Theorem selection_goes_round (monitors : list HMONITOR) (i : nat) (m : HMONITOR) :
  NoDup monitors ->
  Z.of_nat (length monitors) < 2 ^ 62 ->
  monitors !! i = Some m ->
  hops monitors (length monitors) m = Ok m /\
  forall k, (0 < k < length monitors)%nat -> hops monitors k m <> Ok m.
Proof.
  intros Hd Hfew Hi.
  pose proof (lookup_lt_Some _ _ _ Hi) as Hlt.
  split.
  - rewrite (hops_position monitors Hd Hfew _ i m Hi).
    replace (Z.of_nat i - Z.of_nat (length monitors))
      with (Z.of_nat i + (-1) * Z.of_nat (length monitors)) by lia.
    rewrite Z_mod_plus_full, Z.mod_small by lia.
    apply index_lookup; [lia |]. now rewrite Nat2Z.id.
  - intros k Hk. rewrite (hops_position monitors Hd Hfew _ i m Hi).
    set (j := (Z.of_nat i - Z.of_nat k) mod Z.of_nat (length monitors)).
    assert (Hj : 0 <= j < Z.of_nat (length monitors))
      by (apply Z.mod_pos_bound; lia).
    destruct (index_in_range monitors j Hj) as (m' & Em' & ->).
    intros [= ->].
    pose proof (NoDup_lookup _ _ _ _ Hd Hi Em') as E.
    assert (Ej : j = Z.of_nat i) by lia.
    subst j.
    destruct (Z_le_gt_dec (Z.of_nat k) (Z.of_nat i)) as [Hle | Hgt].
    + rewrite Z.mod_small in Ej by lia. lia.
    + replace (Z.of_nat i - Z.of_nat k)
        with (Z.of_nat i - Z.of_nat k + Z.of_nat (length monitors)
              + (-1) * Z.of_nat (length monitors)) in Ej by lia.
      rewrite Z_mod_plus_full, Z.mod_small in Ej by lia. lia.
Qed.

Lemma selection_goes_round_witness :
  NoDup [11; 22; 33] /\
  hops [11; 22; 33] 3 22 = Ok 22 /\
  hops [11; 22; 33] 1 22 = Ok 11 /\ hops [11; 22; 33] 2 22 = Ok 33.
Proof.
  assert (Hd : NoDup [11; 22; 33]).
  { repeat constructor; rewrite ?elem_of_cons, ?elem_of_nil; intuition discriminate. }
  split; [exact Hd |].
  split; [| split; reflexivity].
  exact (proj1 (selection_goes_round [11; 22; 33] 1 22 Hd
                  ltac:(vm_compute; reflexivity) eq_refl)).
Defined.

(** ** Moving onto the selected monitor *)



(** ** The loop that clears the other indices *)

Section Loop.

Variable i : Z.

(** The loop of lines 71-75 entered at position [j] with [n] rounds to go. *)
Lemma zeroOthers_from (n j : nat) (turns : list Z) :
  (j + n <= length turns)%nat ->
  Z.of_nat (length turns) < 2 ^ 63 ->
  length (zeroOthers i n (Z.of_nat j) turns) = length turns /\
  forall k x,
    turns !! k = Some x ->
    zeroOthers i n (Z.of_nat j) turns !! k
    = Some (if (j <=? k)%nat && (k <? j + n)%nat && negb (Z.of_nat k =? i)
            then 0 else x).
Proof.
  change (2 ^ 63) with 9223372036854775808.
  revert j turns. induction n as [| n IH]; intros j turns Hjn Hlen.
  - cbn [zeroOthers]. split; [reflexivity |]. intros k x Hk.
    replace ((j <=? k)%nat && (k <? j + 0)%nat) with false; [exact Hk |].
    symmetry. destruct (Nat.leb_spec j k), (Nat.ltb_spec k (j + 0)); simpl; try reflexivity; lia.
  - cbn [zeroOthers].
    assert (Ej : add64 (Z.of_nat j) 1 = Z.of_nat (S j)).
    { unfold add64. rewrite wrap64_small; [lia |].
      unfold in_int64. change (2 ^ 63) with 9223372036854775808. lia. }
    rewrite Ej, Nat2Z.id.
    set (turns' := if negb (Z.of_nat j =? i) then <[j := 0]> turns else turns).
    assert (Hlen' : length turns' = length turns).
    { subst turns'. destruct (negb (Z.of_nat j =? i)); [apply length_insert | reflexivity]. }
    destruct (IH (S j) turns' ltac:(lia) ltac:(lia)) as [Hl Hk'].
    split; [lia |].
    intros k x Hk.
    destruct (Nat.eq_dec k j) as [-> | Hkj].
    + assert (Ek : turns' !! j = Some (if negb (Z.of_nat j =? i) then 0 else x)).
      { subst turns'. destruct (negb (Z.of_nat j =? i)); [| exact Hk].
        apply list_lookup_insert_eq. lia. }
      rewrite (Hk' _ _ Ek).
      replace ((S j <=? j)%nat) with false
        by (symmetry; apply Nat.leb_gt; lia).
      replace ((j <=? j)%nat) with true by (symmetry; apply Nat.leb_le; lia).
      replace ((j <? j + S n)%nat) with true by (symmetry; apply Nat.ltb_lt; lia).
      cbn [andb]. reflexivity.
    + assert (Ek : turns' !! k = Some x).
      { subst turns'. destruct (negb (Z.of_nat j =? i)); [| exact Hk].
        rewrite list_lookup_insert_ne by lia. exact Hk. }
      rewrite (Hk' _ _ Ek). do 2 f_equal.
      destruct (Nat.leb_spec (S j) k), (Nat.leb_spec j k),
        (Nat.ltb_spec k (S j + n)), (Nat.ltb_spec k (j + S n));
        simpl; try reflexivity; lia.
Qed.

End Loop.

(** X19.  On a slice of any length the loop of lines 71-75 keeps the length
    and the index of the action pressed, and sets every other index to 0. *)
Theorem zeroOthers_clears_the_others (i : Z) (turns : list Z) :
  Z.of_nat (length turns) < 2 ^ 63 ->
  length (zeroOthers i (length turns) 0 turns) = length turns /\
  forall k x,
    turns !! k = Some x ->
    zeroOthers i (length turns) 0 turns !! k
    = Some (if Z.of_nat k =? i then x else 0).
Proof.
  intros Hlen.
  destruct (zeroOthers_from i (length turns) 0 turns ltac:(lia) Hlen) as [Hl Hk].
  change (Z.of_nat 0) with 0 in *.
  split; [exact Hl |].
  intros k x Ex. rewrite (Hk k x Ex).
  pose proof (lookup_lt_Some _ _ _ Ex) as Hlt.
  replace ((0 <=? k)%nat) with true by (symmetry; apply Nat.leb_le; lia).
  replace ((k <? 0 + length turns)%nat) with true by (symmetry; apply Nat.ltb_lt; lia).
  cbn [andb]. now destruct (Z.of_nat k =? i).
Qed.

Lemma zeroOthers_clears_the_others_witness :
  zeroOthers 1 3 0 [7; 8; 9] !! 1%nat = Some 8 /\
  zeroOthers 1 3 0 [7; 8; 9] !! 2%nat = Some 0.
Proof.
  destruct (zeroOthers_clears_the_others 1 [7; 8; 9] ltac:(vm_compute; reflexivity))
    as [_ H].
  split; [exact (H 1%nat 8 eq_refl) | exact (H 2%nat 9 eq_refl)].
Defined.

(** ** Hotkeys that could not be registered *)

Section FailedHotKeys.

Variable RegisterHotKey : HotKey -> bool.
Variable Describe : HotKey -> string.

Lemma string_append_assoc (a b c : string) :
  String.append (String.append a b) c = String.append a (String.append b c).
Proof. induction a as [| ch a IH]; simpl; [reflexivity | now rewrite IH]. Qed.

Lemma string_append_nil_r (a : string) : String.append a EmptyString = a.
Proof. induction a as [| ch a IH]; simpl; [reflexivity | now rewrite IH]. Qed.

Lemma collect_from (table acc : list HotKey) :
  fold_left
    (fun failedHotKeys hk =>
       if negb (RegisterHotKey hk) then failedHotKeys ++ [hk] else failedHotKeys)
    table acc
  = acc ++ List.filter (fun hk => negb (RegisterHotKey hk)) table.
Proof.
  revert acc. induction table as [| hk table IH]; intros acc.
  - simpl. now rewrite app_nil_r.
  - cbn [fold_left List.filter]. rewrite IH.
    destruct (negb (RegisterHotKey hk)); [| reflexivity].
    now rewrite <- app_assoc.
Qed.

Lemma lines_from (failed : list HotKey) (msg : string) :
  fold_left (fun msg hk => String.append msg (failedLine Describe hk)) failed msg
  = String.append msg
      (fold_right String.append EmptyString (map (failedLine Describe) failed)).
Proof.
  revert msg. induction failed as [| hk failed IH]; intros msg.
  - simpl. now rewrite string_append_nil_r.
  - cbn [fold_left map fold_right]. rewrite IH. apply string_append_assoc.
Qed.

Lemma none_failed (table : list HotKey) :
  Forall (fun hk => RegisterHotKey hk = true) table ->
  List.filter (fun hk => negb (RegisterHotKey hk)) table = [].
Proof.
  induction table as [| hk table IH]; intros H; [reflexivity |].
  apply Forall_cons in H. destruct H as [Hhk H].
  cbn [List.filter]. rewrite Hhk. cbn [negb]. now apply IH.
Qed.

End FailedHotKeys.

(** X20.  At startup the hotkeys collected as failed are exactly those whose
    registration failed, each once and in the order of the table; no message
    is built when every registration succeeds, and otherwise the message is
    the header, one line per failed hotkey in that order, and the footer. *)
Theorem failed_hotkeys_are_reported (RegisterHotKey : HotKey -> bool)
    (Describe : HotKey -> string) (table : list HotKey) :
  let failed := List.filter (fun hk => negb (RegisterHotKey hk)) table in
  collectFailed RegisterHotKey table = failed /\
  (failedMessage Describe (collectFailed RegisterHotKey table) = None <->
   Forall (fun hk => RegisterHotKey hk = true) table) /\
  (failed <> [] ->
   failedMessage Describe (collectFailed RegisterHotKey table)
   = Some (String.append
             (String.append failedHeader
                (fold_right String.append EmptyString (map (failedLine Describe) failed)))
             failedFooter)).
Proof.
  intros failed.
  assert (E : collectFailed RegisterHotKey table = failed).
  { unfold collectFailed. now rewrite collect_from. }
  split; [exact E |]. rewrite E. split.
  - unfold failedMessage. subst failed. split.
    + intros H. rewrite Forall_forall. intros hk Hin.
      destruct (RegisterHotKey hk) eqn:Ehk; [reflexivity | exfalso].
      assert (Hf : In hk (List.filter (fun hk => negb (RegisterHotKey hk)) table)).
      { apply filter_In. rewrite Ehk. split; [| reflexivity].
        now apply list_elem_of_In. }
      destruct (List.filter (fun hk => negb (RegisterHotKey hk)) table);
        [destruct Hf | discriminate].
    + intros H. now rewrite (none_failed RegisterHotKey table H).
  - intros Hne. unfold failedMessage.
    destruct failed as [| hk failed']; [congruence |].
    cbn [length]. replace (0 <? Z.of_nat (S (length failed'))) with true
      by (symmetry; apply Z.ltb_lt; lia).
    now rewrite lines_from.
Qed.

Lemma failed_hotkeys_are_reported_witness :
  let P := Sample.desktop Sample.W1 11 Sample.windowRect true true in
  let taken := fun hk : HotKey => negb (id hk =? 50) in
  let name := fun hk : HotKey => if id hk =? 50 then "Alt+Win+Space"%string else "other"%string in
  failedMessage name (collectFailed taken (hks Sample.layouts P))
  = Some (String.append
            (String.append failedHeader
               (String.append (String.append "  - " "Alt+Win+Space") nl))
            failedFooter).
Proof.
  intros P taken name.
  destruct (failed_hotkeys_are_reported taken name (hks Sample.layouts P))
    as (_ & _ & H).
  rewrite H; [reflexivity | discriminate].
Defined.

(** ** Errors of a placement *)

(** X21.  [resize] returns an error only for a zonable window, only together
    with [false], and only because one of five platform calls answered with
    failure; the error carries the format naming that call and the code of
    [GetLastError]. *)
Theorem resize_error_names_call (P : Platform) (hwnd : HWND) (f : resizeFunc)
    (g : globals) (moved : bool) (e : error) :
  outcome (resize P hwnd f) g = Ok (moved, Some e) ->
  moved = false /\
  isZonableWindow P hwnd = true /\
  exists format,
    e = Errorf format (GetLastError P) /\
    ((format = "failed to ReleaseDC:%d"%string /\ ReleaseDC P hwnd = false) \/
     (format = "failed to GetMonitorInfo:%d"%string /\
      GetMonitorInfo P (MonitorFromWindow P hwnd) = None) \/
     (format = "failed to DwmGetWindowAttributeEXTENDED_FRAME_BOUNDS:%d"%string /\
      fst (DwmGetWindowAttributeEXTENDED_FRAME_BOUNDS P hwnd) = false) \/
     (format = "failed to normalize window ShowWindow:%d"%string /\
      ShowWindow P hwnd SW_SHOWNORMAL = false) \/
     (format = "failed to SetWindowPos:%d"%string /\
      ShowWindow P hwnd SW_SHOWNORMAL = true /\
      exists newPos, SetWindowPos P hwnd newPos = false)).
Proof.
  unfold outcome, resize.
  destruct (isZonableWindow P hwnd); cbn [negb]; [| discriminate].
  unfold placeOn, place, moveWindow.
  destruct (ReleaseDC P hwnd) eqn:Erel; cbn [negb].
  2:{ intros [= <- <-]. split; [reflexivity | split; [reflexivity |]].
      eexists. split; [reflexivity |]. left. now split. }
  destruct (GetMonitorInfo P (MonitorFromWindow P hwnd)) as [rcWork |] eqn:Emon.
  2:{ intros [= <- <-]. split; [reflexivity | split; [reflexivity |]].
      eexists. split; [reflexivity |]. right. left. now split. }
  destruct (DwmGetWindowAttributeEXTENDED_FRAME_BOUNDS P hwnd) as [ok frame] eqn:Edwm.
  destruct ok; cbn [negb].
  2:{ intros [= <- <-]. split; [reflexivity | split; [reflexivity |]].
      eexists. split; [reflexivity |]. right. right. left. now split. }
  unfold bind, lift, emit, ret, set_lastResized.
  destruct (resizeForDpi frame _ _) as [a | msg]; [| discriminate].
  destruct (GetWindowRect P hwnd) as [r |]; cbn [deref sameRect is_nil rbind];
    [| discriminate].
  destruct (DeepEqual r (adjustOffsets (f rcWork a) (borderExtents a r)));
    [discriminate |].
  destruct (ShowWindow P hwnd SW_SHOWNORMAL) eqn:Eshow; cbn [negb].
  2:{ intros [= <- <-]. split; [reflexivity | split; [reflexivity |]].
      eexists. split; [reflexivity |]. right. right. right. left. now split. }
  destruct (SetWindowPos P hwnd (adjustOffsets (f rcWork a) (borderExtents a r))) eqn:Eset;
    cbn [negb].
  2:{ intros [= <- <-]. split; [reflexivity | split; [reflexivity |]].
      eexists. split; [reflexivity |]. right. right. right. right.
      split; [reflexivity | split; [reflexivity |]]. eexists. exact Eset. }
  destruct (GetWindowRect_after P hwnd); discriminate.
Qed.

Lemma resize_error_names_call_witness :
  let P := Sample.desktop Sample.W1 11 Sample.windowRect true false in
  outcome (resize P Sample.W1 (leftHalf Sample.layouts)) (startup Sample.layouts)
  = Ok (false, Some (Errorf "failed to GetMonitorInfo:%d" 0)) /\
  isZonableWindow P Sample.W1 = true.
Proof.
  intros P.
  assert (H : outcome (resize P Sample.W1 (leftHalf Sample.layouts)) (startup Sample.layouts)
              = Ok (false, Some (Errorf "failed to GetMonitorInfo:%d" 0)))
    by (vm_compute; reflexivity).
  split; [exact H |].
  exact (proj1 (proj2 (resize_error_names_call P Sample.W1 (leftHalf Sample.layouts)
                         (startup Sample.layouts) false _ H))).
Defined.

(** ** A move to another monitor in the middle of a cycle *)

(** The recorded window after the callback of hotkey 52 has got past the
    queries. *)
Lemma onMoveToMonitor_records (P : Platform) (m : HMONITOR) (g : globals) :
  let hwnd := GetForegroundWindow P in
  hwnd <> 0 ->
  isZonableWindow P hwnd = true ->
  selectMonitor (EnumMonitors P) (MonitorFromWindow P hwnd) = Ok m ->
  reachesRecording P hwnd (GetWindowRect P hwnd) m = true ->
  after (onMoveToMonitor P) g
  = {| lastResized := hwnd; edgeFuncTurn := edgeFuncTurn g |}.
Proof.
  intros hwnd Hh Hz Hsel Hrec.
  unfold after, onMoveToMonitor. fold hwnd.
  replace (hwnd =? 0) with false by (symmetry; now apply Z.eqb_neq).
  unfold bind at 1. unfold moveToNextMonitor. rewrite Hz, Hsel. cbn [negb].
  unfold bind at 1. unfold lift at 1.
  rewrite (placeOn_run P hwnd _ _ m center g g), Hrec.
  destruct (outcome (placeOn P hwnd _ _ m center) g) as [[moved [err |]] | msg];
    reflexivity.
Qed.

(** X22.  [moveToNextMonitor] records its window without touching the turn
    indices.  So when the move of a window has got past the queries, the
    press of an action that follows against that window is taken for the
    same window whatever window was recorded before: it performs the
    placement of the variant at position [t mod 3], [t] being the index the
    action stood at, not that of the first variant. *)
Theorem move_carries_cycle_over (L : Layouts) (P P' : Platform) (m : HMONITOR)
    (i t : Z) (g : globals) :
  let hwnd := GetForegroundWindow P in
  let g1 := after (onMoveToMonitor P) g in
  hwnd <> 0 ->
  isZonableWindow P hwnd = true ->
  selectMonitor (EnumMonitors P) (MonitorFromWindow P hwnd) = Ok m ->
  reachesRecording P hwnd (GetWindowRect P hwnd) m = true ->
  GetForegroundWindow P' = hwnd ->
  0 <= i < 5 -> 0 <= t ->
  edgeFuncTurn g !! Z.to_nat i = Some t ->
  g1 = {| lastResized := hwnd; edgeFuncTurn := edgeFuncTurn g |} /\
  exists f0 f1 f2,
    edgeFuncs L !! Z.to_nat i = Some [f0; f1; f2] /\
    let f := if t mod 3 =? 0 then f0 else if t mod 3 =? 1 then f1 else f2 in
    trace (cycleEdgeFuncs L P' i) g1
    = match outcome (resize P' hwnd f) g1 with
      | Ok (_, Some err) => trace (resize P' hwnd f) g1 ++ [Printf_err "warn: resize: %v\n" err]
      | _ => trace (resize P' hwnd f) g1
      end.
Proof.
  intros hwnd g1 Hh Hz Hsel Hrec Hfg Hi Ht Et.
  assert (Eg1 : g1 = {| lastResized := hwnd; edgeFuncTurn := edgeFuncTurn g |})
    by (apply (onMoveToMonitor_records P m g); assumption).
  split; [exact Eg1 |].
  destruct (edgeFuncs_three L i Hi) as (f0 & f1 & f2 & Erow).
  exists f0, f1, f2. split; [exact Erow |].
  set (f := if t mod 3 =? 0 then f0 else if t mod 3 =? 1 then f1 else f2).
  assert (Ef : variant L i t = Some f).
  { unfold variant. rewrite Erow. cbn [length]. change (Z.of_nat 3) with 3.
    rewrite Z.rem_mod_nonneg by lia. subst f.
    pose proof (Z.mod_pos_bound t 3 ltac:(lia)) as Hm.
    assert (Hc : t mod 3 = 0 \/ t mod 3 = 1 \/ t mod 3 = 2) by lia.
    destruct Hc as [-> | [-> | ->]]; reflexivity. }
  unfold trace at 1.
  rewrite (press_same_window L P' i t f g1); rewrite ?Hfg, ?Eg1; try assumption;
    try reflexivity; try lia.
  destruct (outcome (resize P' hwnd f) _) as [[moved [err |]] | msg]; reflexivity.
Qed.

Lemma move_carries_cycle_over_witness :
  let P := Sample.desktop Sample.W2 11 Sample.windowRect true true in
  let g := {| lastResized := Sample.W1; edgeFuncTurn := [1; 0; 0; 0; 0] |} in
  let g1 := after (onMoveToMonitor P) g in
  g1 = {| lastResized := Sample.W2; edgeFuncTurn := [1; 0; 0; 0; 0] |} /\
  trace (cycleEdgeFuncs Sample.layouts P 0) g1
  = trace (resize P Sample.W2 (leftTwoThirds Sample.layouts)) g1.
Proof.
  intros P g g1.
  destruct (move_carries_cycle_over Sample.layouts P P 33 0 1 g)
    as (Eg1 & f0 & f1 & f2 & Erow & Etrace).
  - discriminate.
  - reflexivity.
  - reflexivity.
  - reflexivity.
  - reflexivity.
  - lia.
  - lia.
  - reflexivity.
  - injection Erow as <- <- <-. split; [exact Eg1 | exact Etrace].
Defined.
